(** * QtService, standard backend: the service controller

    A shallow embedding of [StandardServiceControl]
    (src/plugins/servicebackends/standard/standardservicecontrol.cpp).

    The controller owns no state of its own beyond its two constructor
    arguments: everything it does is a call into Qt, into the [ServiceControl]
    base class or into the operating system.  A member function is therefore
    embedded as a finite tree of such calls ([Prog]); an operating system is a
    handler that answers each call and moves its own state; [run] executes a
    program against a handler and records the calls that were made, with their
    answers, in order. *)

From Stdlib Require Import ZArith List String Ascii Bool Lia DecimalString.
Import ListNotations.
Local Open Scope string_scope.
Local Open Scope Z_scope.

(** ** Data *)

(** [ServiceControl::Status], the three values the controller tells apart. *)
Inductive Status : Type := Stopped | Running | Unknown.

Definition Status_eqb (a b : Status) : bool :=
  match a, b with
  | Stopped, Stopped | Running, Running | Unknown, Unknown => true
  | _, _ => false
  end.

(** [QLockFile::LockError] with the numeric values of the enumeration, which
    is what [QString::arg] prints. *)
Inductive LockError : Type := NoError | LockFailedError | PermissionError | UnknownError.

Definition LockError_code (e : LockError) : Z :=
  match e with
  | NoError => 0
  | LockFailedError => 1
  | PermissionError => 2
  | UnknownError => 3
  end.

Definition LockError_eqb (a b : LockError) : bool :=
  LockError_code a =? LockError_code b.

(** A [QLockFile] object: its file name and its stale lock time in
    milliseconds (30 s when freshly constructed). *)
Record QLockFile : Type := mkQLockFile {
  fileName : string;
  staleLockTime : Z
}.

Definition QLockFile_create (path : string) : QLockFile :=
  {| fileName := path; staleLockTime := 30000 |}.

Definition setStaleLockTime (t : Z) (l : QLockFile) : QLockFile :=
  {| fileName := fileName l; staleLockTime := t |}.

(** [std::numeric_limits<int>::max()] for the 32-bit [int] of Qt's platforms. *)
Definition INT_MAX : Z := 2147483647.

(** The age test of [QLockFile], as Qt documents [setStaleLockTime]: the
    stale lock time is the time in milliseconds after which a lock file is
    considered stale, and 0 is the value that switches the test off.  [age]
    is the time since the lock file was last modified, in milliseconds (a
    64-bit quantity). *)
Definition QLockFile_staleByAge (l : QLockFile) (age : Z) : bool :=
  (0 <? staleLockTime l) && (staleLockTime l <? Z.abs age).

(** [QProcess] as far as the controller configures it. *)
Inductive ProcessChannelMode : Type := SeparateChannels | ForwardedChannels.
Inductive InputChannelMode : Type := ManagedInputChannel | ForwardedInputChannel.

Record QProcess : Type := mkQProcess {
  program : string;
  arguments : list string;
  workingDirectory : string;
  processChannelMode : ProcessChannelMode;
  inputChannelMode : InputChannelMode;
  standardInputFile : option string;
  standardOutputFile : option string;
  standardErrorFile : option string
}.

Definition QProcess_new : QProcess :=
  {| program := ""; arguments := []; workingDirectory := "";
     processChannelMode := SeparateChannels;
     inputChannelMode := ManagedInputChannel;
     standardInputFile := None; standardOutputFile := None;
     standardErrorFile := None |}.

Definition setProgram (s : string) (p : QProcess) : QProcess :=
  mkQProcess s (arguments p) (workingDirectory p) (processChannelMode p)
    (inputChannelMode p) (standardInputFile p) (standardOutputFile p)
    (standardErrorFile p).
Definition setArguments (a : list string) (p : QProcess) : QProcess :=
  mkQProcess (program p) a (workingDirectory p) (processChannelMode p)
    (inputChannelMode p) (standardInputFile p) (standardOutputFile p)
    (standardErrorFile p).
Definition setWorkingDirectory (d : string) (p : QProcess) : QProcess :=
  mkQProcess (program p) (arguments p) d (processChannelMode p)
    (inputChannelMode p) (standardInputFile p) (standardOutputFile p)
    (standardErrorFile p).
Definition setProcessChannelMode (m : ProcessChannelMode) (p : QProcess) : QProcess :=
  mkQProcess (program p) (arguments p) (workingDirectory p) m
    (inputChannelMode p) (standardInputFile p) (standardOutputFile p)
    (standardErrorFile p).
Definition setInputChannelMode (m : InputChannelMode) (p : QProcess) : QProcess :=
  mkQProcess (program p) (arguments p) (workingDirectory p)
    (processChannelMode p) m (standardInputFile p) (standardOutputFile p)
    (standardErrorFile p).
Definition setStandardInputFile (f : string) (p : QProcess) : QProcess :=
  mkQProcess (program p) (arguments p) (workingDirectory p)
    (processChannelMode p) (inputChannelMode p) (Some f)
    (standardOutputFile p) (standardErrorFile p).
Definition setStandardOutputFile (f : string) (p : QProcess) : QProcess :=
  mkQProcess (program p) (arguments p) (workingDirectory p)
    (processChannelMode p) (inputChannelMode p) (standardInputFile p)
    (Some f) (standardErrorFile p).
Definition setStandardErrorFile (f : string) (p : QProcess) : QProcess :=
  mkQProcess (program p) (arguments p) (workingDirectory p)
    (processChannelMode p) (inputChannelMode p) (standardInputFile p)
    (standardOutputFile p) (Some f).

(** What is streamed into a [qCDebug] line. *)
Inductive LogItem : Type :=
| LStr (s : string)
| LInt (z : Z)
| LList (l : list string).

(** [QVariant], as far as the generic command produces it: the invalid
    (empty) variant, or a [qint64]. *)
Inductive QVariant : Type :=
| Invalid
| VLongLong (z : Z)
| VString (s : string)
| VBool (b : bool).

(** ** Strings *)

(** The double quote, for message texts that contain one. *)
Definition dquote : string := String "034"%char EmptyString.

(** [QString::arg] on a text whose only place marker is [%1]. *)
Fixpoint QString_arg (s a : string) : string :=
  match s with
  | EmptyString => EmptyString
  | String "%"%char (String "1"%char r) => a ++ QString_arg r a
  | String c r => String c (QString_arg r a)
  end.

(** [QString::arg(int)]: the number in decimal. *)
Definition number (z : Z) : string := NilZero.string_of_int (Z.to_int z).

(** [tr]: the source text itself, no translation being installed. *)
Definition tr (s : string) : string := s.

(** ** Integer conversions *)

(** [static_cast<pid_t>] of a [qint64]: [pid_t] is a signed 32-bit integer. *)
Definition to_pid_t (z : Z) : Z := (z + 2^31) mod 2^32 - 2^31.

(** [static_cast<DWORD>] of a [qint64]: [DWORD] is an unsigned 32-bit integer. *)
Definition to_DWORD (z : Z) : Z := z mod 2^32.

(** A [DWORD] passed where an [int] is expected, as [GetLastError()] is to
    [qt_error_string(int)]: [int] is a signed 32-bit integer, so a value from
    2^31 on arrives as that value less 2^32. *)
Definition to_int (z : Z) : Z := (z + 2^31) mod 2^32 - 2^31.

Definition SIGTERM : Z := 15.
Definition CTRL_C_EVENT : Z := 0.

(** ** Calls that leave the file *)

(** Every function the controller calls and the source file does not define:
    the [ServiceControl] base class ([runtimeDir], [setError]), Qt
    ([QLockFile], [QStandardPaths], [QProcess], logging, [QThread]), POSIX
    ([kill]) and the Windows console API.  The index is the type of the
    answer; an out-parameter is passed in and handed back with the answer. *)
Inductive call : Type -> Type :=
| runtimeDir_absoluteFilePath (name : string) : call string
| QLockFile_tryLock (l : QLockFile) : call bool
| QLockFile_unlock (l : QLockFile) : call unit
| QLockFile_error (l : QLockFile) : call LockError
| QLockFile_getLockInfo (l : QLockFile) (pid : Z) (hostname appname : string)
    : call (bool * (Z * string * string))
| setError (msg : string) : call unit
| findExecutable (name : string) : call string
| isDebugEnabled : call bool
| qDebug (line : list LogItem) : call unit
| connect_finished_deleteLater : call unit
| QProcess_start (p : QProcess) : call unit
| QProcess_waitForStarted (p : QProcess) : call bool
| QProcess_processId (p : QProcess) : call Z
| QProcess_errorString (p : QProcess) : call string
| QProcess_startDetached (p : QProcess) (pid : Z) : call (bool * Z)
| kill (pid : Z) (sig : Z) : call Z
| FreeConsole : call bool
| AllocConsole : call bool
| AttachConsole (pid : Z) : call bool
| SetConsoleCtrlHandler_null (add : bool) : call bool
| GenerateConsoleCtrlEvent (ev : Z) (group : Z) : call bool
| GetLastError : call Z
| qt_error_string (code : Z) : call string
| msleep (ms : Z) : call unit.

(** A program: return, or make a call and go on with its answer. *)
Inductive Prog (R : Type) : Type :=
| Ret (r : R)
| Do (X : Type) (c : call X) (k : X -> Prog R).

Arguments Ret {R} r.
Arguments Do {R X} c k.

Fixpoint bind {A B : Type} (p : Prog A) (f : A -> Prog B) : Prog B :=
  match p with
  | Ret a => f a
  | Do c k => Do c (fun x => bind (k x) f)
  end.

Definition perform {X : Type} (c : call X) : Prog X := Do c Ret.

Declare Scope prog_scope.
Delimit Scope prog_scope with prog.
Notation "x <- p ;; q" := (bind p (fun x => q))
  (at level 61, p at next level, right associativity) : prog_scope.
Notation "p ;; q" := (bind p (fun _ => q))
  (at level 61, right associativity) : prog_scope.
Local Open Scope prog_scope.

(** One entry of the record of a run: a call and the answer it got. *)
Inductive event : Type :=
| Ev (X : Type) (c : call X) (x : X).

Arguments Ev {X} c x.

(** An operating system (with Qt on top): a state and an answer to each call. *)
Definition handler (W : Type) : Type := forall X : Type, call X -> W -> X * W.

Definition ask {W X : Type} (h : handler W) (c : call X) (w : W) : X := fst (h X c w).
Definition next {W X : Type} (h : handler W) (c : call X) (w : W) : W := snd (h X c w).

Fixpoint run {W R : Type} (h : handler W) (p : Prog R) (w : W) : R * W * list event :=
  match p with
  | Ret r => (r, w, [])
  | Do c k =>
      let '(r, w', t) := run h (k (ask h c w)) (next h c w) in
      (r, w', Ev c (ask h c w) :: t)
  end.

Definition result {W R : Type} (o : R * W * list event) : R := fst (fst o).
Definition world {W R : Type} (o : R * W * list event) : W := snd (fst o).
Definition trace {W R : Type} (o : R * W * list event) : list event := snd o.

(** ** The controller *)

(** What the build fixes: the two preprocessor conditions of the file, the
    two platform constants [QDir::rootPath()] and [QProcess::nullDevice()],
    and the base class's [ServiceControl::start], which the file falls back to
    when Qt was built without [QProcess]. *)
Record Build : Type := mkBuild {
  Q_OS_WIN : bool;
  QT_CONFIG_process : bool;
  rootPath : string;
  nullDevice : string;
  ServiceControl_start : Prog bool
}.

(** The object: the two constructor arguments. *)
Record StandardServiceControl : Type := mkControl {
  _debugMode : bool;
  serviceId : string
}.

(** [qCDebug(logControl) << ...]: the streamed expressions are evaluated, and
    the line written, only when the category has debug output enabled. *)
Definition qCDebug (line : Prog (list LogItem)) : Prog unit :=
  on <- perform isDebugEnabled ;;
  if on then (l <- line ;; perform (qDebug l)) else Ret tt.

Definition backend (c : StandardServiceControl) : string :=
  if _debugMode c then "debug" else "standard".

Definition serviceExists (c : StandardServiceControl) : Prog bool :=
  bin <- perform (findExecutable (serviceId c)) ;;
  Ret (negb (bin =? "")%string).

Definition statusLock (c : StandardServiceControl) : Prog QLockFile :=
  path <- perform (runtimeDir_absoluteFilePath "qstandard.lock") ;;
  let lock := QLockFile_create path in
  let lock := setStaleLockTime INT_MAX lock in
  Ret lock.

Definition status (c : StandardServiceControl) : Prog Status :=
  lock <- statusLock c ;;
  locked <- perform (QLockFile_tryLock lock) ;;
  if locked then
    perform (QLockFile_unlock lock) ;;
    Ret Stopped
  else
    e <- perform (QLockFile_error lock) ;;
    if LockError_eqb e LockFailedError then
      Ret Running
    else
      e' <- perform (QLockFile_error lock) ;;
      perform (setError (QString_arg (tr "Failed to access lockfile with error: %1")
                                     (number (LockError_code e')))) ;;
      Ret Unknown.

Definition getPid (c : StandardServiceControl) : Prog Z :=
  lock <- statusLock c ;;
  r <- perform (QLockFile_getLockInfo lock 0 "" "") ;;
  let '(ok, (pid, _h, _a)) := r in
  if ok then Ret pid else Ret (-1).

Definition callGenericCommand (c : StandardServiceControl)
    (kind : string) (args : list QVariant) : Prog QVariant :=
  if (kind =? "getPid")%string then
    pid <- getPid c ;;
    Ret (VLongLong pid)
  else
    Ret Invalid.

(** [prepareProc], the lambda of [start]. *)
Definition prepareProc (b : Build) (c : StandardServiceControl) (bin : string)
    (svcProc : QProcess) : QProcess :=
  let svcProc := setProgram bin svcProc in
  let svcProc := setArguments ["--backend"; backend c] svcProc in
  setWorkingDirectory (rootPath b) svcProc.

Definition start (b : Build) (c : StandardServiceControl) : Prog bool :=
  if QT_CONFIG_process b then
    st <- status c ;;
    if Status_eqb st Running then
      qCDebug (pid <- getPid c ;;
               Ret [LStr "Service already running with PID"; LInt pid]) ;;
      Ret true
    else
      bin <- perform (findExecutable (serviceId c)) ;;
      if (bin =? "")%string then
        perform (setError (QString_arg
          (tr ("Unabled to find executable for service with id " ++ dquote ++ "%1" ++ dquote))
          (serviceId c))) ;;
        Ret false
      else
        r <- (if _debugMode c then
                let svcProc := QProcess_new in
                perform connect_finished_deleteLater ;;
                let svcProc := prepareProc b c bin svcProc in
                let svcProc := setProcessChannelMode ForwardedChannels svcProc in
                let svcProc := setInputChannelMode ForwardedInputChannel svcProc in
                qCDebug (Ret [LStr "Launching service subprocess as";
                              LStr (program svcProc); LList (arguments svcProc)]) ;;
                perform (QProcess_start svcProc) ;;
                ok <- perform (QProcess_waitForStarted svcProc) ;;
                if ok then
                  pid <- perform (QProcess_processId svcProc) ;;
                  Ret (ok, pid, "")
                else
                  errorString <- perform (QProcess_errorString svcProc) ;;
                  Ret (ok, 0, errorString)
              else
                let svcProc := QProcess_new in
                let svcProc := prepareProc b c bin svcProc in
                let svcProc := setStandardInputFile (nullDevice b) svcProc in
                let svcProc := setStandardOutputFile (nullDevice b) svcProc in
                let svcProc := setStandardErrorFile (nullDevice b) svcProc in
                qCDebug (Ret [LStr "Launching service detached as";
                              LStr (program svcProc); LList (arguments svcProc)]) ;;
                r <- perform (QProcess_startDetached svcProc 0) ;;
                let '(ok, pid) := r in
                if negb ok then
                  errorString <- perform (QProcess_errorString svcProc) ;;
                  Ret (ok, pid, errorString)
                else
                  Ret (ok, pid, "")) ;;
        let '(ok, pid, errorString) := r in
        (if ok then
           qCDebug (Ret [LStr "Started service process with PID"; LInt pid;
                         LStr (if _debugMode c then "in debug mode" else "")])
         else
           perform (setError (QString_arg
             (tr "Failed to start service process with error: %1") errorString))) ;;
        Ret ok
  else
    ServiceControl_start b.

(** The process object [start] has configured when it launches it. *)
Definition service_process (b : Build) (c : StandardServiceControl) (bin : string)
    : QProcess :=
  if _debugMode c then
    setInputChannelMode ForwardedInputChannel
      (setProcessChannelMode ForwardedChannels (prepareProc b c bin QProcess_new))
  else
    setStandardErrorFile (nullDevice b)
      (setStandardOutputFile (nullDevice b)
         (setStandardInputFile (nullDevice b) (prepareProc b c bin QProcess_new))).

(** [qScopeGuard]: the guard's function runs when the enclosing block is
    left, after the block's value has been computed. *)
Definition qScopeGuard {R : Type} (f : Prog unit) (block : Prog R) : Prog R :=
  r <- block ;;
  f ;;
  Ret r.

(** The [for] loop of the Windows branch of [stop]; [n] counts the iterations
    that are left ([10 - i]), the value is the variable [ok] on leaving. *)
Fixpoint stop_loop (c : StandardServiceControl) (n : nat) : Prog bool :=
  match n with
  | O => Ret false
  | S n' =>
      sent <- perform (GenerateConsoleCtrlEvent CTRL_C_EVENT 0) ;;
      if sent then
        st <- status c ;;
        if Status_eqb st Running then
          perform (msleep 500) ;;
          stop_loop c n'
        else
          Ret true
      else
        code <- perform GetLastError ;;
        s <- perform (qt_error_string (to_int code)) ;;
        perform (setError (QString_arg
          (tr "Failed to send stop signal with error: %1") s)) ;;
        stop_loop c n'
  end.

(** The body of [stop] under [Q_OS_WIN]. *)
Definition stop_windows (c : StandardServiceControl) (pid : Z) : Prog bool :=
  hadConsole <- perform FreeConsole ;;
  qScopeGuard (if hadConsole then perform AllocConsole ;; Ret tt else Ret tt)
    (attached <- perform (AttachConsole (to_DWORD pid)) ;;
     if attached then
       qScopeGuard (perform FreeConsole ;; Ret tt)
         (disabled <- perform (SetConsoleCtrlHandler_null true) ;;
          if disabled then
            qScopeGuard (perform (SetConsoleCtrlHandler_null false) ;; Ret tt)
              (ok <- stop_loop c 10 ;;
               if negb ok then
                 perform (setError (tr "Service did not stop yet")) ;;
                 Ret ok
               else
                 Ret ok)
          else
            code <- perform GetLastError ;;
            s <- perform (qt_error_string (to_int code)) ;;
            perform (setError (QString_arg
              (tr "Failed to disable local console handler with error: %1") s)) ;;
            Ret false)
     else
       code <- perform GetLastError ;;
       s <- perform (qt_error_string (to_int code)) ;;
       perform (setError (QString_arg
         (tr "Failed to attach to service console with error: %1") s)) ;;
       Ret false).

(** The body of [stop] on the other platforms. *)
Definition stop_posix (pid : Z) : Prog bool :=
  r <- perform (kill (to_pid_t pid) SIGTERM) ;;
  Ret (r =? 0).

Definition stop (b : Build) (c : StandardServiceControl) : Prog bool :=
  st <- status c ;;
  if Status_eqb st Stopped then
    qCDebug (Ret [LStr "Service already stopped "]) ;;
    Ret true
  else
    pid <- getPid c ;;
    if pid =? -1 then
      perform (setError (tr "Failed to get pid of running service")) ;;
      Ret false
    else if Q_OS_WIN b then
      stop_windows c pid
    else
      stop_posix pid.

(** ** What counts as what in a record of calls *)

(** The process a spawning call ([QProcess::start] or
    [QProcess::startDetached]) launches. *)
Definition spawned (e : event) : option QProcess :=
  match e with
  | Ev (QProcess_start p) _ => Some p
  | Ev (QProcess_startDetached p _) _ => Some p
  | _ => None
  end.

(** The processes launched in a record of calls, in order. *)
Fixpoint spawns (t : list event) : list QProcess :=
  match t with
  | [] => []
  | e :: t' =>
      match spawned e with
      | Some p => p :: spawns t'
      | None => spawns t'
      end
  end.

(** The signal and console-event mechanism of [stop]. *)
Definition is_signal (e : event) : bool :=
  match e with
  | Ev (kill _ _) _ => true
  | Ev FreeConsole _ => true
  | Ev AllocConsole _ => true
  | Ev (AttachConsole _) _ => true
  | Ev (SetConsoleCtrlHandler_null _) _ => true
  | Ev (GenerateConsoleCtrlEvent _ _) _ => true
  | _ => false
  end.

Definition is_interrupt (e : event) : bool :=
  match e with
  | Ev (GenerateConsoleCtrlEvent _ _) _ => true
  | _ => false
  end.

(** An interrupt event that was generated, and one that could not be. *)
Definition interrupt_sent (e : event) : bool :=
  match e with
  | @Ev _ (GenerateConsoleCtrlEvent _ _) ok => ok
  | _ => false
  end.

Definition interrupt_failed (e : event) : bool :=
  match e with
  | @Ev _ (GenerateConsoleCtrlEvent _ _) ok => negb ok
  | _ => false
  end.

(** The durations slept, in order. *)
Fixpoint sleeps (t : list event) : list Z :=
  match t with
  | [] => []
  | Ev (msleep ms) _ :: t' => ms :: sleeps t'
  | _ :: t' => sleeps t'
  end.

(** Taking the lock: [tryLock] is the only call of the file that does. *)
Definition is_tryLock (e : event) : bool :=
  match e with
  | Ev (QLockFile_tryLock _) _ => true
  | _ => false
  end.

(** The messages handed to [setError], in order. *)
Fixpoint errors (t : list event) : list string :=
  match t with
  | [] => []
  | Ev (setError msg) _ :: t' => msg :: errors t'
  | _ :: t' => errors t'
  end.

Definition count (f : event -> bool) (t : list event) : nat :=
  List.length (List.filter f t).

(** ** A reference operating system

    A small, executable operating system to run the controller on: a service
    that holds the status lock while it lives, answers a search path, and
    leaves on [SIGTERM] or after a number of console interrupts. *)

Record Scenario : Type := mkScenario {
  sc_runtimeDir : string;
  sc_fault : option LockError;       (* the lock file cannot be accessed *)
  sc_path : list (string * string);  (* executables on the search path *)
  sc_spawn : option Z;               (* the PID of a spawned process, if spawning works *)
  sc_spawnError : string;
  sc_debug : bool;                   (* debug output of the category is on *)
  sc_kill : Z;                       (* what [kill] returns *)
  sc_console : bool;                 (* the caller has a console *)
  sc_attach : bool;
  sc_disable : bool;
  sc_oserr : Z                       (* [GetLastError] *)
}.

Record Sim : Type := mkSim {
  sim_holder : option Z;     (* the PID of the process that holds the lock *)
  sim_interrupts : list bool;(* whether the next interrupts can be generated *)
  sim_patience : nat;        (* interrupts the service ignores before it leaves *)
  sim_lockError : LockError; (* [error()] of the lock object *)
  sim_error : string         (* the controller's error message *)
}.

Fixpoint lookup (k : string) (l : list (string * string)) : string :=
  match l with
  | [] => ""
  | (k', v) :: l' => if (k =? k')%string then v else lookup k l'
  end.

Definition sim (sc : Scenario) : handler Sim :=
  fun X c =>
    match c in call X return Sim -> X * Sim with
    | runtimeDir_absoluteFilePath name =>
        fun s => (sc_runtimeDir sc ++ "/" ++ name, s)
    | QLockFile_tryLock _ =>
        fun s =>
          match sc_fault sc, sim_holder s with
          | Some e, _ =>
              (false, mkSim (sim_holder s) (sim_interrupts s) (sim_patience s) e (sim_error s))
          | None, Some _ =>
              (false, mkSim (sim_holder s) (sim_interrupts s) (sim_patience s)
                            LockFailedError (sim_error s))
          | None, None =>
              (true, mkSim (sim_holder s) (sim_interrupts s) (sim_patience s)
                           NoError (sim_error s))
          end
    | QLockFile_unlock _ => fun s => (tt, s)
    | QLockFile_error _ => fun s => (sim_lockError s, s)
    | QLockFile_getLockInfo _ pid h a =>
        fun s =>
          match sc_fault sc, sim_holder s with
          | None, Some p => ((true, (p, "localhost", "service")), s)
          | _, _ => ((false, (pid, h, a)), s)
          end
    | setError msg =>
        fun s => (tt, mkSim (sim_holder s) (sim_interrupts s) (sim_patience s)
                            (sim_lockError s) msg)
    | findExecutable name => fun s => (lookup name (sc_path sc), s)
    | isDebugEnabled => fun s => (sc_debug sc, s)
    | qDebug _ => fun s => (tt, s)
    | connect_finished_deleteLater => fun s => (tt, s)
    | QProcess_start _ =>
        fun s => (tt, mkSim (match sc_spawn sc with Some p => Some p | None => sim_holder s end)
                            (sim_interrupts s) (sim_patience s) (sim_lockError s)
                            (sim_error s))
    | QProcess_waitForStarted _ =>
        fun s => (match sc_spawn sc with Some _ => true | None => false end, s)
    | QProcess_processId _ =>
        fun s => (match sc_spawn sc with Some p => p | None => 0 end, s)
    | QProcess_errorString _ => fun s => (sc_spawnError sc, s)
    | QProcess_startDetached _ pid =>
        fun s =>
          match sc_spawn sc with
          | Some p => ((true, p), mkSim (Some p) (sim_interrupts s) (sim_patience s)
                                        (sim_lockError s) (sim_error s))
          | None => ((false, pid), s)
          end
    | kill _ _ =>
        fun s => (sc_kill sc,
                  mkSim (if sc_kill sc =? 0 then None else sim_holder s)
                        (sim_interrupts s) (sim_patience s) (sim_lockError s)
                        (sim_error s))
    | FreeConsole => fun s => (sc_console sc, s)
    | AllocConsole => fun s => (true, s)
    | AttachConsole _ => fun s => (sc_attach sc, s)
    | SetConsoleCtrlHandler_null _ => fun s => (sc_disable sc, s)
    | GenerateConsoleCtrlEvent _ _ =>
        fun s =>
          match sim_interrupts s with
          | false :: rest =>
              (false, mkSim (sim_holder s) rest (sim_patience s) (sim_lockError s)
                            (sim_error s))
          | rest =>
              (true,
               match sim_patience s with
               | O => mkSim None (List.tl rest) O (sim_lockError s) (sim_error s)
               | S n => mkSim (sim_holder s) (List.tl rest) n (sim_lockError s)
                              (sim_error s)
               end)
          end
    | GetLastError => fun s => (sc_oserr sc, s)
    | qt_error_string code => fun s => ("error " ++ number code, s)
    | msleep _ => fun s => (tt, s)
    end.

(** A Linux-like build with [QProcess], and a Windows build. *)
Definition posix_build : Build :=
  mkBuild false true "/" "/dev/null" (Ret false).
Definition windows_build : Build :=
  mkBuild true true "C:/" "\\.\NUL" (Ret false).

Definition quiet : Scenario :=
  mkScenario "/run/user/1000/myservice" None [("myservice", "/usr/bin/myservice")]
             (Some 4242) "" false 0 true true true 5.

Definition idle : Sim := mkSim None [] O NoError "".
Definition busy (pid : Z) : Sim := mkSim (Some pid) [] O NoError "".

Definition myservice (debug : bool) : StandardServiceControl :=
  mkControl debug "myservice".

(** [quiet] with a runtime directory the caller may not write to. *)
Definition denied : Scenario :=
  mkScenario "/run/user/1000/myservice" (Some PermissionError)
             [("myservice", "/usr/bin/myservice")]
             (Some 4242) "" false 0 true true true 5.

(** [quiet] with nothing on the search path. *)
Definition bare : Scenario :=
  mkScenario "/run/user/1000/myservice" None [] (Some 4242) "" false 0 true true true 5.

(** [quiet] where the service's console cannot be attached to, and where the
    local handler cannot be disabled. *)
Definition detached : Scenario :=
  mkScenario "/run/user/1000/myservice" None [("myservice", "/usr/bin/myservice")]
             (Some 4242) "" false 0 true false true 5.
Definition handled : Scenario :=
  mkScenario "/run/user/1000/myservice" None [("myservice", "/usr/bin/myservice")]
             (Some 4242) "" false 0 true true false 5.

(** A running service whose console refuses the first interrupt, one whose
    console refuses ten of them, and one that ignores twenty. *)
Definition flaky (pid : Z) : Sim := mkSim (Some pid) [false] O NoError "".
Definition deaf (pid : Z) : Sim := mkSim (Some pid) (repeat false 10) O NoError "".
Definition stubborn (pid : Z) : Sim := mkSim (Some pid) [] 20 NoError "".

(** ** Names for the points of a run *)

(** The lock object an operation works on, and the state it is first used in. *)
Definition the_lock {W : Type} (h : handler W) (c : StandardServiceControl) (w : W)
    : QLockFile :=
  result (run h (statusLock c) w).

Definition lock_made {W : Type} (h : handler W) (c : StandardServiceControl) (w : W)
    : W :=
  world (run h (statusLock c) w).

(** What [error()] answers after a failed [tryLock], the first and the
    second time [status] asks. *)
Definition status_failure {W : Type} (h : handler W) (c : StandardServiceControl)
    (w : W) : LockError :=
  ask h (QLockFile_error (the_lock h c w))
      (next h (QLockFile_tryLock (the_lock h c w)) (lock_made h c w)).

Definition status_failure_shown {W : Type} (h : handler W)
    (c : StandardServiceControl) (w : W) : LockError :=
  ask h (QLockFile_error (the_lock h c w))
      (next h (QLockFile_error (the_lock h c w))
            (next h (QLockFile_tryLock (the_lock h c w)) (lock_made h c w))).

(** The executable [start] finds: the search runs in the state [status] leaves. *)
Definition found_executable {W : Type} (h : handler W) (c : StandardServiceControl)
    (w : W) : string :=
  ask h (findExecutable (serviceId c)) (world (run h (status c) w)).

(** [stop] up to the platform fork: [status], then [getPid]. *)
Definition resolved_pid {W : Type} (h : handler W) (c : StandardServiceControl)
    (w : W) : Z :=
  result (run h (getPid c) (world (run h (status c) w))).

Definition stop_entry {W : Type} (h : handler W) (c : StandardServiceControl)
    (w : W) : W :=
  world (run h (getPid c) (world (run h (status c) w))).

Definition stop_entry_trace {W : Type} (h : handler W) (c : StandardServiceControl)
    (w : W) : list event :=
  (trace (run h (status c) w)
   ++ trace (run h (getPid c) (world (run h (status c) w))))%list.

(** [stop] gets as far as the fork: the service is not reported stopped and
    its PID is known. *)
Definition signalling {W : Type} (h : handler W) (c : StandardServiceControl)
    (w : W) : Prop :=
  result (run h (status c) w) <> Stopped /\ resolved_pid h c w <> -1.

(** The Windows branch up to the loop: the state the loop starts in, and
    whether the caller had a console. *)
Definition had_console {W : Type} (h : handler W) (c : StandardServiceControl)
    (w : W) : bool :=
  ask h FreeConsole (stop_entry h c w).

Definition attach_state {W : Type} (h : handler W) (c : StandardServiceControl)
    (w : W) : W :=
  next h FreeConsole (stop_entry h c w).

Definition attached {W : Type} (h : handler W) (c : StandardServiceControl)
    (w : W) : bool :=
  ask h (AttachConsole (to_DWORD (resolved_pid h c w))) (attach_state h c w).

Definition disable_state {W : Type} (h : handler W) (c : StandardServiceControl)
    (w : W) : W :=
  next h (AttachConsole (to_DWORD (resolved_pid h c w))) (attach_state h c w).

Definition disabled {W : Type} (h : handler W) (c : StandardServiceControl)
    (w : W) : bool :=
  ask h (SetConsoleCtrlHandler_null true) (disable_state h c w).


(** The launch specification of [start]. *)
Definition launch_spec (b : Build) (c : StandardServiceControl) (p : QProcess) : Prop :=
  arguments p = ["--backend"; if _debugMode c then "debug" else "standard"]
  /\ workingDirectory p = rootPath b.

(** ** The rest of the controller *)

(** [ServiceControl::BlockMode]. *)
Inductive BlockMode : Type := Undetermined | Blocking | NonBlocking.

Definition blocking (b : Build) : BlockMode :=
  if Q_OS_WIN b then Undetermined else NonBlocking.

(** The values of the three [ServiceControl::SupportFlag] enumerators the
    file names; the enumeration is declared in the base class's header. *)
Record SupportFlag : Type := mkSupportFlag {
  SupportFlag_Status : Z;
  SupportFlag_Stop : Z;
  SupportFlag_Start : Z
}.

(** [supportFlags]: a [QFlags] value, the bitwise or of the enumerators. *)
Definition supportFlags (F : SupportFlag) (b : Build) : Z :=
  let flags := Z.lor (SupportFlag_Status F) (SupportFlag_Stop F) in
  if QT_CONFIG_process b then Z.lor flags (SupportFlag_Start F) else flags.

(** [QString::split(sep, QString::SkipEmptyParts)]: the pieces between the
    separators, the empty ones left out; [cur] is the piece being read. *)
Fixpoint split_from (sep : ascii) (s : string) (cur : string) : list string :=
  match s with
  | EmptyString => if (cur =? "")%string then [] else [cur]
  | String a r =>
      if Ascii.eqb a sep then
        if (cur =? "")%string then split_from sep r "" else cur :: split_from sep r ""
      else
        split_from sep r (cur ++ String a EmptyString)
  end.

Definition split_SkipEmptyParts (sep : ascii) (s : string) : list string :=
  split_from sep s "".

(** [QList::last()]: the last item; the list must not be empty, and [None]
    stands for the call on an empty list. *)
Fixpoint QList_last (l : list string) : option string :=
  match l with
  | [] => None
  | [x] => Some x
  | _ :: l' => QList_last l'
  end.

(** What [QFileInfo] tells about a path: whether it is an executable file,
    and its complete base name. *)
Record QFileInfo : Type := mkQFileInfo {
  isExecutable : string -> bool;
  completeBaseName : string -> string
}.

Definition serviceName (fs : QFileInfo) (c : StandardServiceControl) : option string :=
  if isExecutable fs (serviceId c) then
    Some (completeBaseName fs (serviceId c))
  else
    QList_last (split_SkipEmptyParts "/"%char (serviceId c)).

(** Whether a character occurs in a string. *)
Fixpoint occurs (a : ascii) (s : string) : bool :=
  match s with
  | EmptyString => false
  | String x r => Ascii.eqb x a || occurs a r
  end.

(** Whether a string is made of one character only. *)
Fixpoint only (a : ascii) (s : string) : bool :=
  match s with
  | EmptyString => true
  | String x r => Ascii.eqb x a && only a r
  end.

(** ** More on records of calls *)

Definition QLockFile_eqb (a b : QLockFile) : bool :=
  (fileName a =? fileName b)%string && (staleLockTime a =? staleLockTime b).

(** The lock a successful [tryLock] has taken. *)
Definition locked_by (e : event) : option QLockFile :=
  match e with
  | @Ev _ (QLockFile_tryLock l) ok => if ok then Some l else None
  | _ => None
  end.

Definition unlocks (l : QLockFile) (e : event) : bool :=
  match e with
  | Ev (QLockFile_unlock l') _ => QLockFile_eqb l l'
  | _ => false
  end.

(** Every lock taken in the record is given back by the very next call. *)
Fixpoint released (t : list event) : bool :=
  match t with
  | [] => true
  | e :: t' =>
      match locked_by e with
      | Some l =>
          match t' with
          | e' :: t'' => unlocks l e' && released t''
          | [] => false
          end
      | None => released t'
      end
  end.

(** The calls [status] makes. *)
Definition status_call (e : event) : bool :=
  match e with
  | Ev (runtimeDir_absoluteFilePath _) _ => true
  | Ev (QLockFile_tryLock _) _ => true
  | Ev (QLockFile_unlock _) _ => true
  | Ev (QLockFile_error _) _ => true
  | Ev (setError _) _ => true
  | _ => false
  end.

(** The calls [start] makes after [status]. *)
Definition launch_call (e : event) : bool :=
  match e with
  | Ev (runtimeDir_absoluteFilePath _) _ => true
  | Ev (QLockFile_getLockInfo _ _ _ _) _ => true
  | Ev (setError _) _ => true
  | Ev (findExecutable _) _ => true
  | Ev isDebugEnabled _ => true
  | Ev (qDebug _) _ => true
  | Ev connect_finished_deleteLater _ => true
  | Ev (QProcess_start _) _ => true
  | Ev (QProcess_waitForStarted _) _ => true
  | Ev (QProcess_processId _) _ => true
  | Ev (QProcess_errorString _) _ => true
  | Ev (QProcess_startDetached _ _) _ => true
  | _ => false
  end.

(** The calls [stop] makes besides those of [status]. *)
Definition signal_call (e : event) : bool :=
  match e with
  | Ev (runtimeDir_absoluteFilePath _) _ => true
  | Ev (QLockFile_getLockInfo _ _ _ _) _ => true
  | Ev (setError _) _ => true
  | Ev isDebugEnabled _ => true
  | Ev (qDebug _) _ => true
  | Ev (kill _ _) _ => true
  | Ev FreeConsole _ => true
  | Ev AllocConsole _ => true
  | Ev (AttachConsole _) _ => true
  | Ev (SetConsoleCtrlHandler_null _) _ => true
  | Ev (GenerateConsoleCtrlEvent _ _) _ => true
  | Ev GetLastError _ => true
  | Ev (qt_error_string _) _ => true
  | Ev (msleep _) _ => true
  | _ => false
  end.

(** The calls the loop of the Windows branch makes besides those of [status]. *)
Definition loop_call (e : event) : bool :=
  match e with
  | Ev (setError _) _ => true
  | Ev (GenerateConsoleCtrlEvent _ _) _ => true
  | Ev GetLastError _ => true
  | Ev (qt_error_string _) _ => true
  | Ev (msleep _) _ => true
  | _ => false
  end.

(** Searching for the executable or handling a [QProcess]. *)
Definition is_launch (e : event) : bool :=
  match e with
  | Ev (findExecutable _) _ => true
  | Ev connect_finished_deleteLater _ => true
  | Ev (QProcess_start _) _ => true
  | Ev (QProcess_waitForStarted _) _ => true
  | Ev (QProcess_processId _) _ => true
  | Ev (QProcess_errorString _) _ => true
  | Ev (QProcess_startDetached _ _) _ => true
  | _ => false
  end.

Definition is_detached_launch (e : event) : bool :=
  match e with
  | Ev (QProcess_startDetached _ _) _ => true
  | _ => false
  end.

Definition is_sleep (e : event) : bool :=
  match e with Ev (msleep _) _ => true | _ => false end.

(** The console calls of the Windows branch, one by one. *)
Definition is_FreeConsole (e : event) : bool :=
  match e with Ev FreeConsole _ => true | _ => false end.
Definition is_AllocConsole (e : event) : bool :=
  match e with Ev AllocConsole _ => true | _ => false end.
Definition is_handler_off (e : event) : bool :=
  match e with Ev (SetConsoleCtrlHandler_null true) _ => true | _ => false end.
Definition is_handler_on (e : event) : bool :=
  match e with Ev (SetConsoleCtrlHandler_null false) _ => true | _ => false end.

(** What [QProcess::errorString] answered, in order. *)
Fixpoint launch_errors (t : list event) : list string :=
  match t with
  | [] => []
  | @Ev _ (QProcess_errorString _) s :: t' => s :: launch_errors t'
  | _ :: t' => launch_errors t'
  end.

(** The first arguments of the [kill] calls, in order. *)
Fixpoint kill_targets (t : list event) : list Z :=
  match t with
  | [] => []
  | Ev (kill pid _) _ :: t' => pid :: kill_targets t'
  | _ :: t' => kill_targets t'
  end.

(** The time slept in all, in milliseconds. *)
Definition slept (t : list event) : Z := fold_right Z.add 0 (sleeps t).

(** Three single-bit flag values, for examples. *)
Definition flags_example : SupportFlag := mkSupportFlag 256 2 1.

(** A file system on which nothing is an executable file. *)
Definition no_files : QFileInfo := mkQFileInfo (fun _ => false) (fun s => s).

(** How [start] wires the standard channels of the process it launches: in
    debug mode forwarded to the caller's, otherwise all three on the null
    device. *)
Definition launch_io (b : Build) (c : StandardServiceControl) (p : QProcess) : Prop :=
  if _debugMode c then
    processChannelMode p = ForwardedChannels
    /\ inputChannelMode p = ForwardedInputChannel
    /\ standardInputFile p = None
    /\ standardOutputFile p = None
    /\ standardErrorFile p = None
  else
    processChannelMode p = SeparateChannels
    /\ inputChannelMode p = ManagedInputChannel
    /\ standardInputFile p = Some (nullDevice b)
    /\ standardOutputFile p = Some (nullDevice b)
    /\ standardErrorFile p = Some (nullDevice b).

(** [quiet] where no process can be spawned. *)
Definition jammed : Scenario :=
  mkScenario "/run/user/1000/myservice" None [("myservice", "/usr/bin/myservice")]
             None "Resource error" false 0 true true true 5.


(** * Properties *)

Local Open Scope list_scope.

(** ** Running programs: equations *)

Section RunEquations.
Context {W : Type} (h : handler W).

Lemma run_bind {A B : Type} (p : Prog A) (f : A -> Prog B) (w : W) :
  run h (bind p f) w =
  (result (run h (f (result (run h p w))) (world (run h p w))),
   world (run h (f (result (run h p w))) (world (run h p w))),
   trace (run h p w) ++ trace (run h (f (result (run h p w))) (world (run h p w)))).
Proof.
  revert w. induction p as [a | X c k IH]; intros w; simpl.
  - unfold result, world, trace; simpl.
    destruct (run h (f a) w) as [[b w'] t]. reflexivity.
  - rewrite IH. unfold result, world, trace.
    destruct (run h (k (ask h c w)) (next h c w)) as [[a w1] t1]. reflexivity.
Qed.

Lemma result_bind {A B : Type} (p : Prog A) (f : A -> Prog B) (w : W) :
  result (run h (bind p f) w) =
  result (run h (f (result (run h p w))) (world (run h p w))).
Proof. rewrite run_bind. reflexivity. Qed.

Lemma world_bind {A B : Type} (p : Prog A) (f : A -> Prog B) (w : W) :
  world (run h (bind p f) w) =
  world (run h (f (result (run h p w))) (world (run h p w))).
Proof. rewrite run_bind. reflexivity. Qed.

Lemma trace_bind {A B : Type} (p : Prog A) (f : A -> Prog B) (w : W) :
  trace (run h (bind p f) w) =
  trace (run h p w) ++ trace (run h (f (result (run h p w))) (world (run h p w))).
Proof. rewrite run_bind. reflexivity. Qed.

Lemma result_perform {X : Type} (c : call X) (w : W) :
  result (run h (perform c) w) = ask h c w.
Proof. reflexivity. Qed.

Lemma world_perform {X : Type} (c : call X) (w : W) :
  world (run h (perform c) w) = next h c w.
Proof. reflexivity. Qed.

Lemma trace_perform {X : Type} (c : call X) (w : W) :
  trace (run h (perform c) w) = [Ev c (ask h c w)].
Proof. reflexivity. Qed.

Lemma result_Ret {R : Type} (r : R) (w : W) : result (run h (Ret r) w) = r.
Proof. reflexivity. Qed.

Lemma world_Ret {R : Type} (r : R) (w : W) : world (run h (Ret r) w) = w.
Proof. reflexivity. Qed.

Lemma trace_Ret {R : Type} (r : R) (w : W) : trace (run h (Ret r) w) = [].
Proof. reflexivity. Qed.

Lemma run_eta {R : Type} (o : R * W * list event) :
  o = (result o, world o, trace o).
Proof. now destruct o as [[r w] t]. Qed.

End RunEquations.

Create Rewrite HintDb run.
#[global] Hint Rewrite @result_bind @world_bind @trace_bind @result_perform
  @world_perform @trace_perform @result_Ret @world_Ret @trace_Ret : run.

(** Unfold a run one layer: split the binds, make the calls. *)
Ltac run_step := autorewrite with run; cbn [app].

(** ** Records of calls *)

Lemma count_app (f : event -> bool) (s t : list event) :
  count f (s ++ t) = (count f s + count f t)%nat.
Proof. unfold count. now rewrite filter_app, length_app. Qed.

Lemma count_cons (f : event -> bool) (e : event) (t : list event) :
  count f (e :: t) = ((if f e then 1 else 0) + count f t)%nat.
Proof. unfold count. simpl. now destruct (f e). Qed.

Lemma count_nil (f : event -> bool) : count f [] = 0%nat.
Proof. reflexivity. Qed.

Lemma spawns_app (s t : list event) : spawns (s ++ t) = spawns s ++ spawns t.
Proof.
  induction s as [| e s IH]; simpl; [reflexivity|].
  destruct (spawned e); simpl; now rewrite IH.
Qed.

Lemma errors_app (s t : list event) : errors (s ++ t) = errors s ++ errors t.
Proof.
  induction s as [| [X c x] s IH]; simpl; [reflexivity|].
  destruct c; simpl; now rewrite IH.
Qed.

Lemma sleeps_app (s t : list event) : sleeps (s ++ t) = sleeps s ++ sleeps t.
Proof.
  induction s as [| [X c x] s IH]; simpl; [reflexivity|].
  destruct c; simpl; now rewrite IH.
Qed.

(** ** Message texts *)

Lemma append_nil_r (s : string) : (s ++ "")%string = s.
Proof. induction s as [| a s IH]; simpl; congruence. Qed.

Lemma msg_lockfile (a : string) :
  QString_arg (tr "Failed to access lockfile with error: %1") a =
  ("Failed to access lockfile with error: " ++ a)%string.
Proof. cbn. now rewrite append_nil_r. Qed.

Lemma msg_executable (a : string) :
  QString_arg
    (tr ("Unabled to find executable for service with id " ++ dquote ++ "%1" ++ dquote))
    a =
  ("Unabled to find executable for service with id " ++ dquote ++ a ++ dquote)%string.
Proof. reflexivity. Qed.

Lemma msg_spawn (a : string) :
  QString_arg (tr "Failed to start service process with error: %1") a =
  ("Failed to start service process with error: " ++ a)%string.
Proof. cbn. now rewrite append_nil_r. Qed.

Lemma msg_interrupt (a : string) :
  QString_arg (tr "Failed to send stop signal with error: %1") a =
  ("Failed to send stop signal with error: " ++ a)%string.
Proof. cbn. now rewrite append_nil_r. Qed.

Lemma msg_disable (a : string) :
  QString_arg (tr "Failed to disable local console handler with error: %1") a =
  ("Failed to disable local console handler with error: " ++ a)%string.
Proof. cbn. now rewrite append_nil_r. Qed.

Lemma msg_attach (a : string) :
  QString_arg (tr "Failed to attach to service console with error: %1") a =
  ("Failed to attach to service console with error: " ++ a)%string.
Proof. cbn. now rewrite append_nil_r. Qed.

(** An error code from 2^31 on reaches [qt_error_string] negative. *)
Lemma to_int_high : to_int 2147942405 = -2147024891.
Proof. reflexivity. Qed.

Lemma to_int_low (z : Z) : 0 <= z < 2^31 -> to_int z = z.
Proof. intros H. unfold to_int. rewrite Z.mod_small; lia. Qed.

Lemma unit_answer (u : unit) : u = tt.
Proof. now destruct u. Qed.

(** ** The status lock, [status] and [getPid] *)

Section StatusLock.
Context {W : Type} (h : handler W) (c : StandardServiceControl) (w : W).

Lemma the_lock_eq :
  the_lock h c w =
  mkQLockFile (ask h (runtimeDir_absoluteFilePath "qstandard.lock") w) INT_MAX.
Proof. reflexivity. Qed.

Lemma statusLock_trace :
  trace (run h (statusLock c) w) =
  [Ev (runtimeDir_absoluteFilePath "qstandard.lock") (fileName (the_lock h c w))].
Proof. reflexivity. Qed.

Lemma status_result :
  result (run h (status c) w) =
  if ask h (QLockFile_tryLock (the_lock h c w)) (lock_made h c w) then Stopped
  else if LockError_eqb (status_failure h c w) LockFailedError then Running
       else Unknown.
Proof.
  unfold status, status_failure, the_lock, lock_made. run_step.
  destruct (ask h (QLockFile_tryLock _) _); run_step; [reflexivity|].
  destruct (LockError_eqb _ _); run_step; reflexivity.
Qed.

Lemma status_trace :
  trace (run h (status c) w) =
  Ev (runtimeDir_absoluteFilePath "qstandard.lock") (fileName (the_lock h c w)) ::
  Ev (QLockFile_tryLock (the_lock h c w))
     (ask h (QLockFile_tryLock (the_lock h c w)) (lock_made h c w)) ::
  (if ask h (QLockFile_tryLock (the_lock h c w)) (lock_made h c w) then
     [Ev (QLockFile_unlock (the_lock h c w)) tt]
   else
     Ev (QLockFile_error (the_lock h c w)) (status_failure h c w) ::
     (if LockError_eqb (status_failure h c w) LockFailedError then []
      else
        [Ev (QLockFile_error (the_lock h c w)) (status_failure_shown h c w);
         Ev (setError ("Failed to access lockfile with error: "
                       ++ number (LockError_code (status_failure_shown h c w)))%string)
            tt])).
Proof.
  unfold status, status_failure_shown, status_failure, lock_made. run_step.
  rewrite statusLock_trace. cbn [app]. unfold the_lock.
  destruct (ask h (QLockFile_tryLock _) _); run_step.
  - now rewrite (unit_answer (ask h (QLockFile_unlock _) _)).
  - destruct (LockError_eqb _ _); run_step; [reflexivity|].
    rewrite msg_lockfile. now rewrite (unit_answer (ask h (setError _) _)).
Qed.

Lemma LockError_eqb_eq (a b : LockError) : LockError_eqb a b = true <-> a = b.
Proof. destruct a, b; cbv; split; congruence. Qed.

(** Nothing [status] calls spawns, signals, sleeps or interrupts. *)
Lemma status_spawns : spawns (trace (run h (status c) w)) = [].
Proof.
  rewrite status_trace.
  destruct (ask h (QLockFile_tryLock _) _); [reflexivity|].
  destruct (LockError_eqb _ _); reflexivity.
Qed.

Lemma status_signals (f : event -> bool) :
  f = is_signal \/ f = is_interrupt \/ f = interrupt_sent \/ f = interrupt_failed ->
  count f (trace (run h (status c) w)) = 0%nat.
Proof.
  intros Hf. rewrite status_trace.
  destruct (ask h (QLockFile_tryLock _) _);
    [| destruct (LockError_eqb _ _)];
    destruct Hf as [-> | [-> | [-> | ->]]]; reflexivity.
Qed.

Lemma status_sleeps : sleeps (trace (run h (status c) w)) = [].
Proof.
  rewrite status_trace.
  destruct (ask h (QLockFile_tryLock _) _); [reflexivity|].
  destruct (LockError_eqb _ _); reflexivity.
Qed.

Lemma getPid_result :
  result (run h (getPid c) w) =
  let '(ok, (pid, _, _)) :=
    ask h (QLockFile_getLockInfo (the_lock h c w) 0 "" "") (lock_made h c w) in
  if ok then pid else -1.
Proof.
  unfold getPid, the_lock, lock_made. run_step.
  destruct (ask h (QLockFile_getLockInfo _ _ _ _) _) as [[] [[pid hn] an]];
    reflexivity.
Qed.

Lemma getPid_trace :
  trace (run h (getPid c) w) =
  [Ev (runtimeDir_absoluteFilePath "qstandard.lock") (fileName (the_lock h c w));
   Ev (QLockFile_getLockInfo (the_lock h c w) 0 "" "")
      (ask h (QLockFile_getLockInfo (the_lock h c w) 0 "" "") (lock_made h c w))].
Proof.
  unfold getPid, lock_made. run_step. rewrite statusLock_trace. unfold the_lock.
  cbn [app].
  destruct (ask h (QLockFile_getLockInfo _ _ _ _) _) as [[] [[pid hn] an]];
    reflexivity.
Qed.

End StatusLock.

(** C1. [status] by the outcome of the non-blocking [tryLock] on the status
    lock: when the lock is acquired it is unlocked by the very next call and
    the answer is [Stopped]; when it is not and [error()] is
    [LockFailedError] (another process holds it) the answer is [Running];
    when it is not and [error()] is anything else the answer is [Unknown] and
    [setError] gets the message "Failed to access lockfile with error: "
    followed by the number of the error. *)
Theorem status_by_lock_outcome {W : Type} (h : handler W)
    (c : StandardServiceControl) (w : W) :
  let lock := the_lock h c w in
  let acquired := ask h (QLockFile_tryLock lock) (lock_made h c w) in
  let o := run h (status c) w in
  (acquired = true ->
     result o = Stopped /\
     trace o =
       [Ev (runtimeDir_absoluteFilePath "qstandard.lock") (fileName lock);
        Ev (QLockFile_tryLock lock) true;
        Ev (QLockFile_unlock lock) tt] /\
     errors (trace o) = [])
  /\ (acquired = false -> status_failure h c w = LockFailedError ->
     result o = Running /\
     trace o =
       [Ev (runtimeDir_absoluteFilePath "qstandard.lock") (fileName lock);
        Ev (QLockFile_tryLock lock) false;
        Ev (QLockFile_error lock) LockFailedError] /\
     errors (trace o) = [])
  /\ (acquired = false -> status_failure h c w <> LockFailedError ->
     result o = Unknown /\
     errors (trace o) =
       [("Failed to access lockfile with error: "
         ++ number (LockError_code (status_failure_shown h c w)))%string]).
Proof.
  cbv zeta. rewrite status_result, status_trace.
  split; [| split].
  - intros ->. repeat split.
  - intros -> ->. repeat split.
  - intros -> He.
    destruct (LockError_eqb (status_failure h c w) LockFailedError) eqn:E.
    + apply LockError_eqb_eq in E. contradiction.
    + repeat split.
Qed.

Lemma status_by_lock_outcome_witness :
  result (run (sim quiet) (status (myservice false)) idle) = Stopped
  /\ result (run (sim quiet) (status (myservice false)) (busy 4242)) = Running
  /\ (result (run (sim denied) (status (myservice false)) idle) = Unknown
      /\ errors (trace (run (sim denied) (status (myservice false)) idle)) =
         ["Failed to access lockfile with error: 2"%string]).
Proof.
  split; [| split].
  - apply (proj1 (status_by_lock_outcome (sim quiet) (myservice false) idle)).
    reflexivity.
  - apply (proj1 (proj2 (status_by_lock_outcome (sim quiet) (myservice false)
                                                 (busy 4242)))); reflexivity.
  - apply (proj2 (proj2 (status_by_lock_outcome (sim denied) (myservice false) idle))).
    + reflexivity.
    + vm_compute. discriminate.
Defined.

(** C9. [getPid] makes two calls, the path of the lock file and
    [getLockInfo] on the lock object, and never [tryLock]: it reads the
    metadata without acquiring the lock.  When [getLockInfo] succeeds the
    value is the PID it read; when it fails (no lock file to read, or
    unreadable metadata) the value is -1. *)
Theorem getPid_reads_metadata {W : Type} (h : handler W)
    (c : StandardServiceControl) (w : W) :
  let lock := the_lock h c w in
  let info := ask h (QLockFile_getLockInfo lock 0 "" "") (lock_made h c w) in
  let o := run h (getPid c) w in
  trace o =
    [Ev (runtimeDir_absoluteFilePath "qstandard.lock") (fileName lock);
     Ev (QLockFile_getLockInfo lock 0 "" "") info]
  /\ count is_tryLock (trace o) = 0%nat
  /\ (fst info = true -> result o = fst (fst (snd info)))
  /\ (fst info = false -> result o = -1).
Proof.
  cbv zeta. rewrite getPid_result, getPid_trace.
  destruct (ask h (QLockFile_getLockInfo _ _ _ _) _) as [ok [[pid hn] an]]; simpl.
  repeat split; intros ->; reflexivity.
Qed.

Lemma getPid_reads_metadata_witness :
  result (run (sim quiet) (getPid (myservice false)) (busy 4242)) = 4242
  /\ result (run (sim quiet) (getPid (myservice false)) idle) = -1.
Proof.
  split.
  - apply (proj1 (proj2 (proj2
      (getPid_reads_metadata (sim quiet) (myservice false) (busy 4242))))).
    reflexivity.
  - apply (proj2 (proj2 (proj2
      (getPid_reads_metadata (sim quiet) (myservice false) idle)))).
    reflexivity.
Defined.

(** C10. [callGenericCommand] ignores its argument list: for one kind, any
    two argument lists give the same program, hence the same value, the same
    calls and the same final state on every system.  The kind alone decides:
    "getPid" gives the value of [getPid] as a [qint64] variant, any other
    kind the invalid variant, without a single call. *)
Theorem callGenericCommand_ignores_args {W : Type} (h : handler W)
    (c : StandardServiceControl) (kind : string) (args1 args2 : list QVariant)
    (w : W) :
  run h (callGenericCommand c kind args1) w = run h (callGenericCommand c kind args2) w
  /\ result (run h (callGenericCommand c "getPid" args1) w) =
     VLongLong (result (run h (getPid c) w))
  /\ ((kind =? "getPid")%string = false ->
      run h (callGenericCommand c kind args1) w = (Invalid, w, [])).
Proof.
  split; [reflexivity | split].
  - unfold callGenericCommand. cbn [String.eqb Ascii.eqb Bool.eqb].
    now run_step.
  - intros E. unfold callGenericCommand. now rewrite E.
Qed.

Lemma callGenericCommand_ignores_args_witness :
  run (sim quiet) (callGenericCommand (myservice false) "status" [VBool true]) (busy 7)
  = (Invalid, busy 7, []).
Proof.
  apply (proj2 (proj2 (callGenericCommand_ignores_args (sim quiet) (myservice false)
                         "status" [VBool true] [] (busy 7)))).
  reflexivity.
Defined.

(** The age test with the stale lock time of the status lock: not stale up to
    [INT_MAX] milliseconds. *)
Lemma statusLock_fresh_up_to_INT_MAX {W : Type} (h : handler W)
    (c : StandardServiceControl) (w : W) (age : Z) :
  Z.abs age <= INT_MAX ->
  QLockFile_staleByAge (the_lock h c w) age = false.
Proof.
  intros H. rewrite the_lock_eq. unfold QLockFile_staleByAge. simpl.
  apply Z.ltb_ge. exact H.
Qed.

(** With the stale lock time 0 no age makes a lock stale. *)
Lemma staleLockTime_zero_disables (l : QLockFile) (age : Z) :
  QLockFile_staleByAge (setStaleLockTime 0 l) age = false.
Proof. reflexivity. Qed.

(** C6. The status lock is created with the stale lock time [INT_MAX]
    (2147483647 ms, a little under 25 days), which is not the value that
    switches the age test off: a lock file one millisecond older than that
    passes the test, that is, counts as stale by its age. *)
Theorem statusLock_stale_by_age {W : Type} (h : handler W)
    (c : StandardServiceControl) (w : W) :
  staleLockTime (the_lock h c w) = 2147483647
  /\ QLockFile_staleByAge (the_lock h c w) 2147483648 = true.
Proof. split; reflexivity. Qed.

(** ** Logging *)

Section Logging.
Context {W : Type} (h : handler W).

Lemma qCDebug_trace (line : Prog (list LogItem)) (w : W) :
  trace (run h (qCDebug line) w) =
  Ev isDebugEnabled (ask h isDebugEnabled w) ::
  (if ask h isDebugEnabled w then
     trace (run h line (next h isDebugEnabled w))
     ++ [Ev (qDebug (result (run h line (next h isDebugEnabled w)))) tt]
   else []).
Proof.
  unfold qCDebug. run_step.
  destruct (ask h isDebugEnabled w); run_step; [| reflexivity].
  now rewrite (unit_answer (ask h (qDebug _) _)).
Qed.

Lemma qCDebug_spawns (line : Prog (list LogItem)) (w : W) :
  (forall w', spawns (trace (run h line w')) = []) ->
  spawns (trace (run h (qCDebug line) w)) = [].
Proof.
  intros H. rewrite qCDebug_trace. simpl.
  destruct (ask h isDebugEnabled w); [| reflexivity].
  now rewrite spawns_app, H.
Qed.

Lemma qCDebug_errors (line : Prog (list LogItem)) (w : W) :
  (forall w', errors (trace (run h line w')) = []) ->
  errors (trace (run h (qCDebug line) w)) = [].
Proof.
  intros H. rewrite qCDebug_trace. simpl.
  destruct (ask h isDebugEnabled w); [| reflexivity].
  now rewrite errors_app, H.
Qed.

Lemma qCDebug_count (f : event -> bool) (line : Prog (list LogItem)) (w : W) :
  f (Ev isDebugEnabled (ask h isDebugEnabled w)) = false ->
  (forall l, f (Ev (qDebug l) tt) = false) ->
  (forall w', count f (trace (run h line w')) = 0%nat) ->
  count f (trace (run h (qCDebug line) w)) = 0%nat.
Proof.
  intros H1 H2 H3. rewrite qCDebug_trace. unfold count in *. simpl. rewrite H1.
  destruct (ask h isDebugEnabled w); [| reflexivity].
  rewrite filter_app, length_app, H3. simpl. now rewrite H2.
Qed.

End Logging.

Ltac spawns_step :=
  repeat first
    [ rewrite spawns_app
    | rewrite qCDebug_spawns by (intros; reflexivity)
    | progress cbn [spawns spawned app] ].

(** ** [start] *)

Section Start.
Context {W : Type} (h : handler W) (b : Build) (c : StandardServiceControl) (w : W).
Hypothesis with_process : QT_CONFIG_process b = true.

Lemma getPid_spawns (w' : W) : spawns (trace (run h (getPid c) w')) = [].
Proof. now rewrite getPid_trace. Qed.

Lemma start_running :
  result (run h (status c) w) = Running ->
  result (run h (start b c) w) = true
  /\ spawns (trace (run h (start b c) w)) = []
  /\ errors (trace (run h (start b c) w)) = [].
Proof.
  intros Hst. unfold start. rewrite with_process. run_step. rewrite Hst.
  cbn [Status_eqb]. run_step. split; [reflexivity | split].
  - rewrite !spawns_app, status_spawns, qCDebug_spawns; [reflexivity|].
    intros w'. run_step. rewrite spawns_app, getPid_spawns. reflexivity.
  - rewrite !errors_app, qCDebug_errors.
    + rewrite app_nil_r. rewrite status_trace.
      rewrite status_result in Hst.
      destruct (ask h (QLockFile_tryLock _) _); [discriminate|].
      destruct (LockError_eqb _ _); [reflexivity | discriminate].
    + intros w'. run_step. rewrite errors_app, getPid_trace. reflexivity.
Qed.

Lemma start_spawns :
  spawns (trace (run h (start b c) w)) =
  if Status_eqb (result (run h (status c) w)) Running then []
  else if (found_executable h c w =? "")%string then []
       else [service_process b c (found_executable h c w)].
Proof.
  unfold start, found_executable. rewrite with_process. run_step.
  rewrite spawns_app, status_spawns. cbn [app].
  destruct (Status_eqb _ _); run_step.
  - rewrite spawns_app, qCDebug_spawns; [reflexivity|].
    intros w'. run_step. rewrite spawns_app, getPid_spawns. reflexivity.
  - destruct (_ =? _)%string; run_step; [reflexivity|].
    unfold service_process.
    destruct (_debugMode c); run_step.
    + set (p := setInputChannelMode _ _). spawns_step.
      destruct (ask h (QProcess_waitForStarted p) _); run_step; spawns_step;
        reflexivity.
    + set (p := setStandardErrorFile _ _). spawns_step.
      destruct (ask h (QProcess_startDetached p 0) _) as [[] pid] eqn:E;
        cbn [negb]; run_step; spawns_step; reflexivity.
Qed.

Lemma start_not_found :
  result (run h (status c) w) <> Running ->
  found_executable h c w = ""%string ->
  result (run h (start b c) w) = false
  /\ errors (trace (run h (start b c) w)) =
     errors (trace (run h (status c) w))
     ++ [("Unabled to find executable for service with id "
          ++ dquote ++ serviceId c ++ dquote)%string].
Proof.
  intros Hst Hbin. unfold start. unfold found_executable in Hbin.
  rewrite with_process. run_step.
  destruct (Status_eqb _ _) eqn:E.
  - destruct (result (run h (status c) w)); simpl in E; congruence.
  - run_step. rewrite Hbin. cbn [String.eqb]. run_step.
    rewrite msg_executable. split; [reflexivity|].
    rewrite errors_app. reflexivity.
Qed.

End Start.

Lemma service_process_spec (b : Build) (c : StandardServiceControl) (bin : string) :
  program (service_process b c bin) = bin
  /\ arguments (service_process b c bin) =
     ["--backend"; if _debugMode c then "debug" else "standard"]%string
  /\ workingDirectory (service_process b c bin) = rootPath b.
Proof.
  unfold service_process, prepareProc, backend.
  destruct (_debugMode c); now repeat split.
Qed.

Lemma Status_eqb_neq (a b : Status) : a <> b -> Status_eqb a b = false.
Proof. destruct a, b; simpl; congruence. Qed.

(** C7. In a build with [QProcess]: every process [start] launches, in
    whatever state it is called, has the arguments "--backend" and the
    backend id ("debug" in debug mode, "standard" otherwise) and the root
    directory as its working directory; and when the service is not reported
    running and the search finds an executable, [start] launches exactly one
    process, that executable. *)
Theorem start_launch_spec {W : Type} (h : handler W) (b : Build)
    (c : StandardServiceControl) (w : W) :
  QT_CONFIG_process b = true ->
  let o := run h (start b c) w in
  Forall (launch_spec b c) (spawns (trace o))
  /\ backend c = (if _debugMode c then "debug" else "standard")%string
  /\ (result (run h (status c) w) <> Running ->
      found_executable h c w <> ""%string ->
      exists p, spawns (trace o) = [p]
                /\ program p = found_executable h c w
                /\ arguments p = ["--backend"; backend c]%string
                /\ workingDirectory p = rootPath b).
Proof.
  intros Hcfg. cbv zeta. rewrite (start_spawns h b c w Hcfg).
  split; [| split; [reflexivity|]].
  - destruct (Status_eqb _ _); [constructor|].
    destruct (_ =? _)%string; constructor; [| constructor].
    split; apply service_process_spec.
  - intros Hst Hbin. rewrite (Status_eqb_neq _ _ Hst).
    destruct (_ =? _)%string eqn:E.
    + apply String.eqb_eq in E. contradiction.
    + eexists. split; [reflexivity|]. apply service_process_spec.
Qed.

Lemma start_launch_spec_witness :
  exists p,
    spawns (trace (run (sim quiet) (start posix_build (myservice true)) idle)) = [p]
    /\ program p = "/usr/bin/myservice"%string
    /\ arguments p = ["--backend"; "debug"]%string
    /\ workingDirectory p = "/"%string.
Proof.
  apply (proj2 (proj2 (start_launch_spec (sim quiet) posix_build (myservice true)
                         idle eq_refl)));
    vm_compute; discriminate.
Defined.

(** C8. In a build with [QProcess]: when the service is not reported running
    and the search path has no executable for the service id, [start] returns
    false, launches nothing, and the last message it hands to [setError] is
    "Unabled to find executable for service with id" followed by the quoted
    id; and [serviceExists] returns false wherever the search finds nothing. *)
Theorem start_without_executable {W : Type} (h : handler W) (b : Build)
    (c : StandardServiceControl) (w : W) :
  QT_CONFIG_process b = true ->
  (result (run h (status c) w) <> Running ->
   found_executable h c w = ""%string ->
   let o := run h (start b c) w in
   result o = false
   /\ spawns (trace o) = []
   /\ last (errors (trace o)) ""%string =
      ("Unabled to find executable for service with id "
       ++ dquote ++ serviceId c ++ dquote)%string
   /\ prefix "Unabled to find executable" (last (errors (trace o)) ""%string) = true)
  /\ (forall w', ask h (findExecutable (serviceId c)) w' = ""%string ->
      result (run h (serviceExists c) w') = false).
Proof.
  intros Hcfg. split.
  - intros Hst Hbin. cbv zeta.
    destruct (start_not_found h b c w Hcfg Hst Hbin) as [Hr He].
    rewrite (start_spawns h b c w Hcfg), (Status_eqb_neq _ _ Hst), Hbin, Hr, He.
    rewrite last_last. repeat split.
  - intros w' Hbin. unfold serviceExists. run_step. now rewrite Hbin.
Qed.

Lemma start_without_executable_witness :
  result (run (sim bare) (start posix_build (myservice false)) idle) = false
  /\ result (run (sim bare) (serviceExists (myservice false)) idle) = false.
Proof.
  split.
  - apply (proj1 (start_without_executable (sim bare) posix_build (myservice false)
                    idle eq_refl)).
    + vm_compute. discriminate.
    + reflexivity.
  - apply (proj2 (start_without_executable (sim bare) posix_build (myservice false)
                    idle eq_refl)).
    reflexivity.
Defined.

(** ** [stop] *)

Section Stop.
Context {W : Type} (h : handler W) (b : Build) (c : StandardServiceControl) (w : W).

Lemma stop_stopped :
  result (run h (status c) w) = Stopped ->
  result (run h (stop b c) w) = true
  /\ count is_signal (trace (run h (stop b c) w)) = 0%nat.
Proof.
  intros Hst. unfold stop. run_step. rewrite Hst. cbn [Status_eqb]. run_step.
  split; [reflexivity|].
  rewrite !count_app, status_signals by auto.
  rewrite qCDebug_count; [reflexivity | reflexivity | reflexivity |].
  intros w'. reflexivity.
Qed.

(** From the fork on, [stop] is its platform branch. *)
Lemma stop_fork :
  signalling h c w ->
  let o := run h (if Q_OS_WIN b then stop_windows c (resolved_pid h c w)
                  else stop_posix (resolved_pid h c w))
               (stop_entry h c w) in
  result (run h (stop b c) w) = result o
  /\ world (run h (stop b c) w) = world o
  /\ trace (run h (stop b c) w) = stop_entry_trace h c w ++ trace o.
Proof.
  intros [Hst Hpid]. unfold resolved_pid in Hpid. cbv zeta.
  unfold stop, stop_entry_trace, stop_entry, resolved_pid.
  run_step. rewrite (Status_eqb_neq _ _ Hst). run_step.
  destruct (_ =? -1) eqn:E; [apply Z.eqb_eq in E; contradiction|].
  rewrite <- app_assoc. repeat split.
Qed.

End Stop.

(** C2. Idempotence.  Wherever [status] reports [Running], [start] (in a
    build with [QProcess]) returns true and launches no process; wherever
    [status] reports [Stopped], [stop] returns true and makes no call of the
    signal or console-event mechanism ([kill], the console functions,
    [GenerateConsoleCtrlEvent]). *)
Theorem start_stop_idempotent {W : Type} (h : handler W) (b : Build)
    (c : StandardServiceControl) (w : W) :
  (QT_CONFIG_process b = true ->
   result (run h (status c) w) = Running ->
   result (run h (start b c) w) = true
   /\ spawns (trace (run h (start b c) w)) = [])
  /\ (result (run h (status c) w) = Stopped ->
      result (run h (stop b c) w) = true
      /\ count is_signal (trace (run h (stop b c) w)) = 0%nat).
Proof.
  split.
  - intros Hcfg Hst. destruct (start_running h b c w Hcfg Hst) as [H1 [H2 _]].
    now split.
  - apply stop_stopped.
Qed.

Lemma start_stop_idempotent_witness :
  (result (run (sim quiet) (start posix_build (myservice false)) (busy 4242)) = true
   /\ spawns (trace (run (sim quiet) (start posix_build (myservice false))
                         (busy 4242))) = [])
  /\ (result (run (sim quiet) (stop windows_build (myservice false)) idle) = true
      /\ count is_signal (trace (run (sim quiet) (stop windows_build (myservice false))
                                     idle)) = 0%nat).
Proof.
  split.
  - apply (proj1 (start_stop_idempotent (sim quiet) posix_build (myservice false)
                    (busy 4242))); reflexivity.
  - apply (proj2 (start_stop_idempotent (sim quiet) windows_build (myservice false)
                    idle)); reflexivity.
Defined.

(** ** The POSIX branch *)

Lemma to_pid_t_id (pid : Z) : - 2^31 <= pid < 2^31 -> to_pid_t pid = pid.
Proof.
  intros H. unfold to_pid_t. rewrite Z.mod_small; lia.
Qed.

Lemma stop_entry_quiet {W : Type} (h : handler W) (c : StandardServiceControl) (w : W) :
  sleeps (stop_entry_trace h c w) = []
  /\ count is_signal (stop_entry_trace h c w) = 0%nat
  /\ count is_interrupt (stop_entry_trace h c w) = 0%nat
  /\ count interrupt_sent (stop_entry_trace h c w) = 0%nat
  /\ count interrupt_failed (stop_entry_trace h c w) = 0%nat.
Proof.
  unfold stop_entry_trace.
  rewrite sleeps_app, !count_app, status_sleeps, !status_signals by auto.
  rewrite getPid_trace. repeat split.
Qed.

(** C5, as the code has it.  On the POSIX branch (the service is not
    reported stopped and its PID is known), [stop] makes one more call after
    [status] and [getPid]: [kill] with the PID, cast to [pid_t], and
    [SIGTERM].  It returns true exactly when [kill] returns 0.  Nothing
    follows the [kill]: no sleep, no further look at the lock.  For a PID
    that is a [pid_t] value the cast changes nothing and the signal goes to
    that very PID. *)
Theorem stop_posix_sigterm {W : Type} (h : handler W) (b : Build)
    (c : StandardServiceControl) (w : W) :
  Q_OS_WIN b = false ->
  signalling h c w ->
  let pid := resolved_pid h c w in
  let r := ask h (kill (to_pid_t pid) SIGTERM) (stop_entry h c w) in
  let o := run h (stop b c) w in
  trace o = stop_entry_trace h c w ++ [Ev (kill (to_pid_t pid) SIGTERM) r]
  /\ (result o = true <-> r = 0)
  /\ (- 2^31 <= pid < 2^31 ->
      to_pid_t pid = pid
      /\ trace o =
         stop_entry_trace h c w
         ++ [Ev (kill pid SIGTERM) (ask h (kill pid SIGTERM) (stop_entry h c w))])
  /\ SIGTERM = 15
  /\ sleeps (trace o) = []
  /\ count is_signal (trace o) = 1%nat.
Proof.
  intros Hos Hsig. cbv zeta.
  destruct (stop_fork h b c w Hsig) as [Hr [_ Ht]]. rewrite Hos in Hr, Ht.
  rewrite Hr, Ht. unfold stop_posix. run_step.
  destruct (stop_entry_quiet h c w) as [Hs [Hc _]].
  rewrite sleeps_app, count_app, Hs, Hc.
  split; [reflexivity |].
  split; [apply Z.eqb_eq |].
  split; [| repeat split].
  intros Hrange. rewrite (to_pid_t_id _ Hrange). split; reflexivity.
Qed.

Lemma stop_posix_sigterm_witness :
  trace (run (sim quiet) (stop posix_build (myservice false)) (busy 4242)) =
    stop_entry_trace (sim quiet) (myservice false) (busy 4242)
    ++ [Ev (kill 4242 15) 0]
  /\ result (run (sim quiet) (stop posix_build (myservice false)) (busy 4242)) = true.
Proof.
  assert (S : signalling (sim quiet) (myservice false) (busy 4242))
    by (split; intros E; vm_compute in E; discriminate).
  destruct (stop_posix_sigterm (sim quiet) posix_build (myservice false) (busy 4242)
              eq_refl S) as [_ [Hr [Hin _]]].
  assert (P : resolved_pid (sim quiet) (myservice false) (busy 4242) = 4242)
    by (vm_compute; reflexivity).
  assert (R : - 2^31 <= resolved_pid (sim quiet) (myservice false) (busy 4242) < 2^31)
    by (rewrite P; lia).
  destruct (Hin R) as [_ Ht].
  split; [exact Ht | apply Hr; reflexivity].
Defined.

(** C5 as stated fails for a PID that is no [pid_t] value: with 4294967295
    in the lock file, which is not the sentinel -1, the cast gives -1 and
    [stop] calls [kill] on -1, not on the PID read. *)
Lemma stop_posix_pid_wraps :
  resolved_pid (sim quiet) (myservice false) (busy 4294967295) = 4294967295
  /\ kill_targets
       (trace (run (sim quiet) (stop posix_build (myservice false)) (busy 4294967295)))
     = [-1]
  /\ result (run (sim quiet) (stop posix_build (myservice false)) (busy 4294967295))
     = true.
Proof. vm_compute. repeat split. Qed.

(** ** The Windows branch *)

Section Windows.
Context {W : Type} (h : handler W) (c : StandardServiceControl).

(** One iteration whose interrupt is generated, with the service gone. *)
Lemma stop_loop_leaves (n : nat) (w : W) :
  ask h (GenerateConsoleCtrlEvent CTRL_C_EVENT 0) w = true ->
  result (run h (status c) (next h (GenerateConsoleCtrlEvent CTRL_C_EVENT 0) w))
    <> Running ->
  result (run h (stop_loop c (S n)) w) = true
  /\ trace (run h (stop_loop c (S n)) w) =
     Ev (GenerateConsoleCtrlEvent CTRL_C_EVENT 0) true ::
     trace (run h (status c) (next h (GenerateConsoleCtrlEvent CTRL_C_EVENT 0) w)).
Proof.
  intros Hsent Hst. cbn [stop_loop]. run_step. rewrite Hsent. run_step.
  rewrite (Status_eqb_neq _ _ Hst). run_step. now rewrite app_nil_r.
Qed.

(** One iteration whose interrupt is generated, with the service still
    there: sleep 500 ms, go on. *)
Lemma stop_loop_waits (n : nat) (w : W) :
  ask h (GenerateConsoleCtrlEvent CTRL_C_EVENT 0) w = true ->
  result (run h (status c) (next h (GenerateConsoleCtrlEvent CTRL_C_EVENT 0) w))
    = Running ->
  exists w',
    result (run h (stop_loop c (S n)) w) = result (run h (stop_loop c n) w')
    /\ trace (run h (stop_loop c (S n)) w) =
       Ev (GenerateConsoleCtrlEvent CTRL_C_EVENT 0) true ::
       trace (run h (status c) (next h (GenerateConsoleCtrlEvent CTRL_C_EVENT 0) w))
       ++ Ev (msleep 500) tt :: trace (run h (stop_loop c n) w').
Proof.
  intros Hsent Hst. cbn [stop_loop]. run_step. rewrite Hsent. run_step.
  rewrite Hst. cbn [Status_eqb]. run_step.
  rewrite (unit_answer (ask h (msleep 500) _)).
  eexists. split; reflexivity.
Qed.

(** One iteration whose interrupt cannot be generated: the message is set,
    and the loop goes on. *)
Lemma stop_loop_fails (n : nat) (w : W) :
  ask h (GenerateConsoleCtrlEvent CTRL_C_EVENT 0) w = false ->
  exists (code : Z) (s : string) (w' : W),
    result (run h (stop_loop c (S n)) w) = result (run h (stop_loop c n) w')
    /\ trace (run h (stop_loop c (S n)) w) =
       [Ev (GenerateConsoleCtrlEvent CTRL_C_EVENT 0) false;
        Ev GetLastError code;
        Ev (qt_error_string (to_int code)) s;
        Ev (setError ("Failed to send stop signal with error: " ++ s)%string) tt]
       ++ trace (run h (stop_loop c n) w').
Proof.
  intros Hsent. cbn [stop_loop]. run_step. rewrite Hsent. run_step.
  rewrite msg_interrupt, (unit_answer (ask h (setError _) _)).
  do 3 eexists. split; reflexivity.
Qed.

(** The loop as a whole. *)
Lemma stop_loop_bound (n : nat) (w : W) :
  let o := run h (stop_loop c n) w in
  (count is_interrupt (trace o) <= n)%nat
  /\ (result o = false -> count is_interrupt (trace o) = n)
  /\ (result o = true -> (1 <= count interrupt_sent (trace o))%nat)
  /\ count is_interrupt (trace o) =
     (count interrupt_sent (trace o) + count interrupt_failed (trace o))%nat
  /\ sleeps (trace o) =
     repeat 500 (count interrupt_sent (trace o) - (if result o then 1 else 0)).
Proof.
  cbv zeta. revert w. induction n as [| n IH]; intros w.
  - cbn. repeat split; try lia; discriminate.
  - destruct (ask h (GenerateConsoleCtrlEvent CTRL_C_EVENT 0) w) eqn:Hsent.
    + destruct (Status_eqb
                  (result (run h (status c)
                             (next h (GenerateConsoleCtrlEvent CTRL_C_EVENT 0) w)))
                  Running) eqn:Hst.
      * assert (Hrun : result (run h (status c)
                          (next h (GenerateConsoleCtrlEvent CTRL_C_EVENT 0) w))
                       = Running)
          by (destruct (result _); simpl in Hst; congruence).
        destruct (stop_loop_waits n w Hsent Hrun) as [w' [Hr Ht]].
        rewrite Hr, Ht.
        destruct (IH w') as [H1 [H2 [H3 [H4 H5]]]].
        change (Ev (GenerateConsoleCtrlEvent CTRL_C_EVENT 0) true :: ?t)
          with ([Ev (GenerateConsoleCtrlEvent CTRL_C_EVENT 0) true] ++ t).
        change (?s ++ Ev (msleep 500) tt :: ?t) with (s ++ [Ev (msleep 500) tt] ++ t).
        rewrite !sleeps_app, !count_app, status_sleeps, !status_signals by auto.
        rewrite !count_cons, !count_nil.
        cbn [sleeps is_interrupt interrupt_sent interrupt_failed app negb].
        rewrite H5.
        repeat split; try lia.
        -- intros Hf. rewrite (H2 Hf). reflexivity.
        -- destruct (result (run h (stop_loop c n) w'));
             [specialize (H3 eq_refl) |];
             match goal with
             | |- 500 :: repeat 500 ?a = _ => change (500 :: repeat 500 a)
                                                with (repeat 500 (S a))
             end;
             f_equal; lia.
      * assert (Hrun : result (run h (status c)
                          (next h (GenerateConsoleCtrlEvent CTRL_C_EVENT 0) w))
                       <> Running)
          by (intros E; rewrite E in Hst; discriminate).
        destruct (stop_loop_leaves n w Hsent Hrun) as [Hr Ht].
        rewrite Hr, Ht.
        change (Ev (GenerateConsoleCtrlEvent CTRL_C_EVENT 0) true :: ?t)
          with ([Ev (GenerateConsoleCtrlEvent CTRL_C_EVENT 0) true] ++ t).
        rewrite !sleeps_app, !count_app, status_sleeps, !status_signals by auto.
        rewrite !count_cons, !count_nil.
        cbn [sleeps is_interrupt interrupt_sent interrupt_failed app negb].
        repeat split; try lia; discriminate.
    + destruct (stop_loop_fails n w Hsent) as [code [s [w' [Hr Ht]]]].
      rewrite Hr, Ht.
      destruct (IH w') as [H1 [H2 [H3 [H4 H5]]]].
      rewrite !sleeps_app, !count_app.
      rewrite !count_cons, !count_nil.
      cbn [sleeps is_interrupt interrupt_sent interrupt_failed app negb].
      repeat split; try lia; auto.
Qed.

(** The branch when the target's console cannot be attached to. *)
Lemma stop_windows_unattached (pid : Z) (w : W) :
  ask h (AttachConsole (to_DWORD pid)) (next h FreeConsole w) = false ->
  result (run h (stop_windows c pid) w) = false
  /\ exists (code : Z) (s : string) (a : bool),
       trace (run h (stop_windows c pid) w) =
       [Ev FreeConsole (ask h FreeConsole w);
        Ev (AttachConsole (to_DWORD pid)) false;
        Ev GetLastError code;
        Ev (qt_error_string (to_int code)) s;
        Ev (setError ("Failed to attach to service console with error: " ++ s)%string)
           tt]
       ++ (if ask h FreeConsole w then [Ev AllocConsole a] else []).
Proof.
  intros Hat. unfold stop_windows, qScopeGuard. run_step. rewrite Hat. run_step.
  rewrite msg_attach, (unit_answer (ask h (setError _) _)).
  split.
  - destruct (ask h FreeConsole w); run_step; reflexivity.
  - destruct (ask h FreeConsole w); do 3 eexists; run_step;
      reflexivity || exact true.
  Unshelve. all: exact true.
Qed.

(** The branch when the local console handler cannot be disabled. *)
Lemma stop_windows_undisabled (pid : Z) (w : W) :
  ask h (AttachConsole (to_DWORD pid)) (next h FreeConsole w) = true ->
  ask h (SetConsoleCtrlHandler_null true)
      (next h (AttachConsole (to_DWORD pid)) (next h FreeConsole w)) = false ->
  result (run h (stop_windows c pid) w) = false
  /\ exists (code : Z) (s : string) (f a : bool),
       trace (run h (stop_windows c pid) w) =
       [Ev FreeConsole (ask h FreeConsole w);
        Ev (AttachConsole (to_DWORD pid)) true;
        Ev (SetConsoleCtrlHandler_null true) false;
        Ev GetLastError code;
        Ev (qt_error_string (to_int code)) s;
        Ev (setError ("Failed to disable local console handler with error: "
                      ++ s)%string) tt;
        Ev FreeConsole f]
       ++ (if ask h FreeConsole w then [Ev AllocConsole a] else []).
Proof.
  intros Hat Hdis. unfold stop_windows, qScopeGuard. run_step.
  rewrite Hat. run_step. rewrite Hdis. run_step.
  rewrite msg_disable, (unit_answer (ask h (setError _) _)).
  split.
  - destruct (ask h FreeConsole w); run_step; reflexivity.
  - destruct (ask h FreeConsole w); do 4 eexists; run_step;
      reflexivity || exact true.
  Unshelve. all: exact true.
Qed.

(** The branch when both succeed: the loop, its verdict, the three guards. *)
Lemma stop_windows_looping (pid : Z) (w : W) :
  ask h (AttachConsole (to_DWORD pid)) (next h FreeConsole w) = true ->
  ask h (SetConsoleCtrlHandler_null true)
      (next h (AttachConsole (to_DWORD pid)) (next h FreeConsole w)) = true ->
  let l := run h (stop_loop c 10)
               (next h (SetConsoleCtrlHandler_null true)
                     (next h (AttachConsole (to_DWORD pid)) (next h FreeConsole w))) in
  result (run h (stop_windows c pid) w) = result l
  /\ exists (r f a : bool),
       trace (run h (stop_windows c pid) w) =
       [Ev FreeConsole (ask h FreeConsole w);
        Ev (AttachConsole (to_DWORD pid)) true;
        Ev (SetConsoleCtrlHandler_null true) true]
       ++ trace l
       ++ (if result l then [] else [Ev (setError "Service did not stop yet") tt])
       ++ [Ev (SetConsoleCtrlHandler_null false) r; Ev FreeConsole f]
       ++ (if ask h FreeConsole w then [Ev AllocConsole a] else []).
Proof.
  intros Hat Hdis. cbv zeta. unfold stop_windows, qScopeGuard. run_step.
  rewrite Hat. run_step. rewrite Hdis. run_step.
  split.
  - destruct (result (run h (stop_loop c 10) _)); cbn [negb]; run_step;
      destruct (ask h FreeConsole w); run_step; reflexivity.
  - destruct (result (run h (stop_loop c 10) _)); cbn [negb]; run_step;
      [| rewrite (unit_answer (ask h (setError _) _))];
      destruct (ask h FreeConsole w);
      do 3 eexists; run_step; rewrite <- ?app_assoc; cbn [app];
      reflexivity || exact true.
  Unshelve. all: exact true.
Qed.

End Windows.

(** C3, as the code has it.  On the Windows branch of [stop]: when the
    target's console cannot be attached to, or the local console handler
    cannot be disabled, [stop] sets the message of that step, with the text
    [qt_error_string] gives for [GetLastError()] passed as an [int], goes
    straight to the guards that are armed and returns false.  An interrupt
    event that cannot be generated also sets its message, but the loop goes
    on with the iterations that are left; [stop] returns false when none of
    the interrupt events could be generated, and whenever [stop] returns
    false from the loop all 10 were tried. *)
Theorem stop_windows_setup_failures {W : Type} (h : handler W) (b : Build)
    (c : StandardServiceControl) (w : W) :
  Q_OS_WIN b = true ->
  signalling h c w ->
  let pid := resolved_pid h c w in
  let o := run h (stop b c) w in
  (attached h c w = false ->
   result o = false
   /\ exists (code : Z) (s : string) (a : bool),
        trace o =
        stop_entry_trace h c w
        ++ [Ev FreeConsole (had_console h c w);
            Ev (AttachConsole (to_DWORD pid)) false;
            Ev GetLastError code;
            Ev (qt_error_string (to_int code)) s;
            Ev (setError ("Failed to attach to service console with error: "
                          ++ s)%string) tt]
        ++ (if had_console h c w then [Ev AllocConsole a] else []))
  /\ (attached h c w = true -> disabled h c w = false ->
      result o = false
      /\ exists (code : Z) (s : string) (f a : bool),
           trace o =
           stop_entry_trace h c w
           ++ [Ev FreeConsole (had_console h c w);
               Ev (AttachConsole (to_DWORD pid)) true;
               Ev (SetConsoleCtrlHandler_null true) false;
               Ev GetLastError code;
               Ev (qt_error_string (to_int code)) s;
               Ev (setError ("Failed to disable local console handler with error: "
                             ++ s)%string) tt;
               Ev FreeConsole f]
           ++ (if had_console h c w then [Ev AllocConsole a] else []))
  /\ (attached h c w = true -> disabled h c w = true ->
      (count interrupt_sent (trace o) = 0%nat -> result o = false)
      /\ (result o = false -> count is_interrupt (trace o) = 10%nat))
  /\ (forall (n : nat) (w' : W),
      ask h (GenerateConsoleCtrlEvent CTRL_C_EVENT 0) w' = false ->
      exists (code : Z) (s : string) (w'' : W),
        result (run h (stop_loop c (S n)) w') = result (run h (stop_loop c n) w'')
        /\ trace (run h (stop_loop c (S n)) w') =
           [Ev (GenerateConsoleCtrlEvent CTRL_C_EVENT 0) false;
            Ev GetLastError code;
            Ev (qt_error_string (to_int code)) s;
            Ev (setError ("Failed to send stop signal with error: " ++ s)%string) tt]
           ++ trace (run h (stop_loop c n) w'')).
Proof.
  intros Hos Hsig. cbv zeta.
  destruct (stop_fork h b c w Hsig) as [Hr [_ Ht]]. rewrite Hos in Hr, Ht.
  rewrite Hr, Ht. clear Hr Ht.
  unfold attached, disabled, had_console, disable_state, attach_state.
  split; [| split; [| split]].
  - intros Hat.
    destruct (stop_windows_unattached h c _ _ Hat) as [H1 [code [s [a H2]]]].
    split; [exact H1|]. exists code, s, a. now rewrite H2.
  - intros Hat Hdis.
    destruct (stop_windows_undisabled h c _ _ Hat Hdis)
      as [H1 [code [s [f [a H2]]]]].
    split; [exact H1|]. exists code, s, f, a. now rewrite H2.
  - intros Hat Hdis.
    destruct (stop_windows_looping h c _ _ Hat Hdis) as [H1 [r [f [a H2]]]].
    rewrite H1, H2. clear H1 H2.
    destruct (stop_entry_quiet h c w) as [_ [_ [Hi [Hs _]]]].
    match goal with
    | |- context [run h (stop_loop c 10) ?w0] =>
        destruct (stop_loop_bound h c 10 w0) as [B1 [B2 [B3 [B4 B5]]]];
        destruct (result (run h (stop_loop c 10) w0)) eqn:El
    end;
      destruct (ask h FreeConsole (stop_entry h c w));
      rewrite !count_app, Hi, Hs, !count_cons, !count_nil;
      cbn [is_interrupt interrupt_sent];
      (split; [intros Hz | intros Hf]); try discriminate;
      try (specialize (B3 eq_refl)); try (specialize (B2 eq_refl)); lia.
  - intros n w'. apply stop_loop_fails.
Qed.

Lemma stop_windows_setup_failures_witness :
  result (run (sim detached) (stop windows_build (myservice false)) (busy 4242)) = false
  /\ result (run (sim handled) (stop windows_build (myservice false)) (busy 4242)) = false
  /\ result (run (sim quiet) (stop windows_build (myservice false)) (deaf 4242)) = false.
Proof.
  split; [| split].
  - assert (S : signalling (sim detached) (myservice false) (busy 4242))
      by (split; intros E; vm_compute in E; discriminate).
    destruct (stop_windows_setup_failures (sim detached) windows_build
                (myservice false) (busy 4242) eq_refl S) as [H _].
    apply H. vm_compute. reflexivity.
  - assert (S : signalling (sim handled) (myservice false) (busy 4242))
      by (split; intros E; vm_compute in E; discriminate).
    destruct (stop_windows_setup_failures (sim handled) windows_build
                (myservice false) (busy 4242) eq_refl S) as [_ [H _]].
    apply H; vm_compute; reflexivity.
  - assert (S : signalling (sim quiet) (myservice false) (deaf 4242))
      by (split; intros E; vm_compute in E; discriminate).
    destruct (stop_windows_setup_failures (sim quiet) windows_build
                (myservice false) (deaf 4242) eq_refl S) as [_ [_ [H _]]].
    destruct H as [H _]; [vm_compute; reflexivity | vm_compute; reflexivity |].
    apply H. vm_compute. reflexivity.
Defined.

(** C3 as stated fails where an interrupt event cannot be generated: with a
    console that refuses the first interrupt and takes the second, the
    failure does not end the loop (two interrupt events are tried) and [stop]
    returns true. *)
Lemma stop_windows_interrupt_failure_retried :
  let o := run (sim quiet) (stop windows_build (myservice false)) (flaky 4242) in
  count interrupt_failed (trace o) = 1%nat
  /\ count is_interrupt (trace o) = 2%nat
  /\ result o = true.
Proof. vm_compute. repeat split. Qed.

(** ** The answers of [status] inside the loop *)

Section LoopReports.
Context {W : Type} (h : handler W) (c : StandardServiceControl).





End LoopReports.




(** * Further properties *)

(** ** Counting calls by kind *)

Section Counting.
Context {W : Type} (h : handler W) (c : StandardServiceControl).

Lemma status_count (f : event -> bool) (w : W) :
  (forall e, status_call e = true -> f e = false) ->
  count f (trace (run h (status c) w)) = 0%nat.
Proof.
  intros Hf. rewrite status_trace.
  destruct (ask h (QLockFile_tryLock _) _);
    [| destruct (LockError_eqb _ _)];
    rewrite ?count_cons, ?count_nil, ?Hf by reflexivity; reflexivity.
Qed.

Lemma getPid_count (f : event -> bool) (w : W) :
  (forall e, launch_call e = true -> f e = false)
  \/ (forall e, signal_call e = true -> f e = false) ->
  count f (trace (run h (getPid c) w)) = 0%nat.
Proof.
  intros [Hf | Hf]; rewrite getPid_trace;
    rewrite ?count_cons, ?count_nil, ?Hf by reflexivity; reflexivity.
Qed.

Lemma log_count (f : event -> bool) (line : Prog (list LogItem)) (w : W) :
  (forall e, launch_call e = true -> f e = false)
  \/ (forall e, signal_call e = true -> f e = false) ->
  (forall w', count f (trace (run h line w')) = 0%nat) ->
  count f (trace (run h (qCDebug line) w)) = 0%nat.
Proof.
  intros Hf Hl. apply qCDebug_count; [| | exact Hl].
  - destruct Hf as [Hf | Hf]; apply Hf; reflexivity.
  - intros l. destruct Hf as [Hf | Hf]; apply Hf; reflexivity.
Qed.

End Counting.

(** Count a record of calls none of which is of the kind counted. *)
Ltac count_out Hf :=
  repeat first
    [ rewrite count_app
    | rewrite count_cons
    | rewrite count_nil
    | rewrite Hf by reflexivity
    | rewrite log_count by (auto; intros; reflexivity)
    | rewrite getPid_count by auto ].

Section StartCounting.
Context {W : Type} (h : handler W) (b : Build) (c : StandardServiceControl) (w : W).
Hypothesis with_process : QT_CONFIG_process b = true.

(** Of a kind of call that [start] itself never makes, a run of [start] has
    as many as its run of [status]. *)
Lemma start_count (f : event -> bool) :
  (forall e, launch_call e = true -> f e = false) ->
  count f (trace (run h (start b c) w)) = count f (trace (run h (status c) w)).
Proof.
  intros Hf. unfold start. rewrite with_process. run_step.
  rewrite count_app.
  match goal with |- (_ + ?x)%nat = _ => enough (x = 0%nat) by lia end.
  destruct (Status_eqb _ _); run_step.
  - rewrite count_app, log_count, count_nil; auto.
    intros w'. run_step. rewrite count_app, getPid_count, count_nil; auto.
  - destruct (_ =? _)%string; run_step.
    + count_out Hf. reflexivity.
    + destruct (_debugMode c); run_step.
      * set (p := setInputChannelMode _ _).
        destruct (ask h (QProcess_waitForStarted p) _); run_step;
          count_out Hf; reflexivity.
      * set (p := setStandardErrorFile _ _).
        destruct (ask h (QProcess_startDetached p 0) _) as [[] pid] eqn:E;
          cbn [negb]; run_step; count_out Hf; reflexivity.
Qed.

End StartCounting.

(** ** Locks given back *)

Lemma QLockFile_eqb_refl (l : QLockFile) : QLockFile_eqb l l = true.
Proof. unfold QLockFile_eqb. now rewrite String.eqb_refl, Z.eqb_refl. Qed.

(** A lock that is taken and kept is noticed. *)
Lemma released_notices (l : QLockFile) (t : list event) :
  released (Ev (QLockFile_tryLock l) true :: Ev (QLockFile_error l) NoError :: t) = false.
Proof. reflexivity. Qed.

Lemma released_app (s t : list event) :
  released s = true -> released t = true -> released (s ++ t) = true.
Proof.
  intros Hs Ht.
  enough (H : (released s = true -> released (s ++ t) = true)
              /\ (forall e, released (e :: s) = true ->
                            released ((e :: s) ++ t) = true))
    by (apply H; exact Hs).
  clear Hs. induction s as [| x s [IH1 IH2]].
  - split; [intros _; exact Ht |].
    intros e He. simpl in *. destruct (locked_by e); [discriminate | exact Ht].
  - split; [apply IH2 |].
    intros e He. cbn [released app] in *.
    destruct (locked_by e).
    + apply andb_true_iff in He. destruct He as [Hu Hr].
      rewrite Hu. cbn [andb]. apply IH1. exact Hr.
    + apply (IH2 x). exact He.
Qed.

Lemma released_quiet (t : list event) :
  Forall (fun e => locked_by e = None) t -> released t = true.
Proof.
  induction 1 as [| e t He _ IH]; [reflexivity |].
  cbn [released]. now rewrite He.
Qed.

Lemma released_one (e : event) : locked_by e = None -> released [e] = true.
Proof. intros He. cbn. now rewrite He. Qed.

Section Released.
Context {W : Type} (h : handler W) (c : StandardServiceControl).

Lemma status_released (w : W) : released (trace (run h (status c) w)) = true.
Proof.
  rewrite status_trace.
  destruct (ask h (QLockFile_tryLock _) _); [| destruct (LockError_eqb _ _)];
    cbn; rewrite ?QLockFile_eqb_refl; reflexivity.
Qed.

Lemma getPid_released (w : W) : released (trace (run h (getPid c) w)) = true.
Proof. rewrite getPid_trace. reflexivity. Qed.

Lemma qCDebug_released (line : Prog (list LogItem)) (w : W) :
  (forall w', released (trace (run h line w')) = true) ->
  released (trace (run h (qCDebug line) w)) = true.
Proof.
  intros H. rewrite qCDebug_trace.
  change (Ev isDebugEnabled ?x :: ?t) with ([Ev isDebugEnabled x] ++ t).
  apply released_app; [reflexivity |].
  destruct (ask h isDebugEnabled w); [| reflexivity].
  apply released_app; [apply H | reflexivity].
Qed.

Lemma stop_loop_released (n : nat) (w : W) :
  released (trace (run h (stop_loop c n) w)) = true.
Proof.
  revert w. induction n as [| n IH]; intros w; [reflexivity |].
  destruct (ask h (GenerateConsoleCtrlEvent CTRL_C_EVENT 0) w) eqn:Hsent.
  - destruct (Status_eqb
                (result (run h (status c)
                           (next h (GenerateConsoleCtrlEvent CTRL_C_EVENT 0) w)))
                Running) eqn:Hst.
    + assert (Hrun : result (run h (status c)
                        (next h (GenerateConsoleCtrlEvent CTRL_C_EVENT 0) w))
                     = Running)
        by (destruct (result _); simpl in Hst; congruence).
      destruct (stop_loop_waits h c n w Hsent Hrun) as [w' [_ Ht]]. rewrite Ht.
      change (Ev (GenerateConsoleCtrlEvent CTRL_C_EVENT 0) true :: ?t)
        with ([Ev (GenerateConsoleCtrlEvent CTRL_C_EVENT 0) true] ++ t).
      change (?s ++ Ev (msleep 500) tt :: ?t) with (s ++ [Ev (msleep 500) tt] ++ t).
      repeat apply released_app; auto using status_released.
    + assert (Hrun : result (run h (status c)
                        (next h (GenerateConsoleCtrlEvent CTRL_C_EVENT 0) w))
                     <> Running)
        by (intros E; rewrite E in Hst; discriminate).
      destruct (stop_loop_leaves h c n w Hsent Hrun) as [_ Ht]. rewrite Ht.
      change (Ev (GenerateConsoleCtrlEvent CTRL_C_EVENT 0) true :: ?t)
        with ([Ev (GenerateConsoleCtrlEvent CTRL_C_EVENT 0) true] ++ t).
      apply released_app; auto using status_released.
  - destruct (stop_loop_fails h c n w Hsent) as [code [s [w' [_ Ht]]]]. rewrite Ht.
    apply released_app; [reflexivity | apply IH].
Qed.

End Released.

Ltac released_out :=
  repeat first
    [ reflexivity
    | progress cbn [released locked_by app]
    | apply status_released
    | apply getPid_released
    | apply stop_loop_released
    | apply qCDebug_released; intros
    | apply released_app
    | progress run_step ].

Section ReleasedOperations.
Context {W : Type} (h : handler W) (b : Build) (c : StandardServiceControl) (w : W).

Lemma start_released :
  QT_CONFIG_process b = true ->
  released (trace (run h (start b c) w)) = true.
Proof.
  intros with_process. unfold start. rewrite with_process. run_step.
  apply released_app; [apply status_released |].
  destruct (Status_eqb _ _); run_step.
  - released_out.
  - destruct (_ =? _)%string; run_step; [released_out |].
    destruct (_debugMode c); run_step.
    + set (p := setInputChannelMode _ _).
      destruct (ask h (QProcess_waitForStarted p) _); run_step; released_out.
    + set (p := setStandardErrorFile _ _).
      destruct (ask h (QProcess_startDetached p 0) _) as [[] pid] eqn:E;
        cbn [negb]; run_step; released_out.
Qed.

Lemma stop_windows_released (pid : Z) (w0 : W) :
  released (trace (run h (stop_windows c pid) w0)) = true.
Proof.
  destruct (ask h (AttachConsole (to_DWORD pid)) (next h FreeConsole w0)) eqn:Hat.
  - destruct (ask h (SetConsoleCtrlHandler_null true)
                  (next h (AttachConsole (to_DWORD pid)) (next h FreeConsole w0)))
      eqn:Hdis.
    + destruct (stop_windows_looping h c pid w0 Hat Hdis) as [_ [r [f [a Ht]]]].
      rewrite Ht.
      repeat apply released_app; try reflexivity.
      * apply stop_loop_released.
      * destruct (result _); reflexivity.
      * destruct (ask h FreeConsole w0); reflexivity.
    + destruct (stop_windows_undisabled h c pid w0 Hat Hdis)
        as [_ [code [s [f [a Ht]]]]].
      rewrite Ht. apply released_app; [reflexivity |].
      destruct (ask h FreeConsole w0); reflexivity.
  - destruct (stop_windows_unattached h c pid w0 Hat) as [_ [code [s [a Ht]]]].
    rewrite Ht. apply released_app; [reflexivity |].
    destruct (ask h FreeConsole w0); reflexivity.
Qed.

Lemma stop_released : released (trace (run h (stop b c) w)) = true.
Proof.
  unfold stop. run_step.
  apply released_app; [apply status_released |].
  destruct (Status_eqb _ _); run_step; [released_out |].
  apply released_app; [apply getPid_released |].
  destruct (_ =? -1); run_step; [released_out |].
  destruct (Q_OS_WIN b); [apply stop_windows_released |].
  unfold stop_posix. run_step. reflexivity.
Qed.

End ReleasedOperations.

(** X1. The controller never keeps the status lock: in every run of
    [status], of [start] (in a build with [QProcess]) and of [stop], on any
    system, each successful [tryLock] is followed at once by [unlock] on the
    same lock object. *)
Theorem lock_released_at_once {W : Type} (h : handler W) (b : Build)
    (c : StandardServiceControl) (w : W) :
  released (trace (run h (status c) w)) = true
  /\ released (trace (run h (stop b c) w)) = true
  /\ (QT_CONFIG_process b = true -> released (trace (run h (start b c) w)) = true).
Proof.
  split; [apply status_released | split; [apply stop_released |]].
  apply start_released.
Qed.

Lemma lock_released_at_once_witness :
  released (trace (run (sim quiet) (start posix_build (myservice false)) idle)) = true.
Proof.
  apply (proj2 (proj2 (lock_released_at_once (sim quiet) posix_build
                         (myservice false) idle))).
  reflexivity.
Defined.

(** ** The loop, iteration by iteration *)

Section LoopInduction.
Context {W : Type} (h : handler W) (c : StandardServiceControl).

(** A property of the records of the loop follows from its three kinds of
    iteration. *)
Lemma stop_loop_ind (P : nat -> list event -> Prop) :
  P O [] ->
  (forall n w t,
      P n t ->
      P (S n) ([Ev (GenerateConsoleCtrlEvent CTRL_C_EVENT 0) true]
               ++ trace (run h (status c) w) ++ [Ev (msleep 500) tt] ++ t)) ->
  (forall n w,
      P (S n) ([Ev (GenerateConsoleCtrlEvent CTRL_C_EVENT 0) true]
               ++ trace (run h (status c) w))) ->
  (forall n code s t,
      P n t ->
      P (S n) ([Ev (GenerateConsoleCtrlEvent CTRL_C_EVENT 0) false;
                Ev GetLastError code;
                Ev (qt_error_string (to_int code)) s;
                Ev (setError ("Failed to send stop signal with error: " ++ s)%string) tt]
               ++ t)) ->
  forall n w, P n (trace (run h (stop_loop c n) w)).
Proof.
  intros H0 Hwait Hleave Hfail. induction n as [| n IH]; intros w; [exact H0 |].
  destruct (ask h (GenerateConsoleCtrlEvent CTRL_C_EVENT 0) w) eqn:Hsent.
  - destruct (Status_eqb
                (result (run h (status c)
                           (next h (GenerateConsoleCtrlEvent CTRL_C_EVENT 0) w)))
                Running) eqn:Hst.
    + assert (Hrun : result (run h (status c)
                        (next h (GenerateConsoleCtrlEvent CTRL_C_EVENT 0) w))
                     = Running)
        by (destruct (result _); simpl in Hst; congruence).
      destruct (stop_loop_waits h c n w Hsent Hrun) as [w' [_ Ht]]. rewrite Ht.
      apply Hwait. apply IH.
    + assert (Hrun : result (run h (status c)
                        (next h (GenerateConsoleCtrlEvent CTRL_C_EVENT 0) w))
                     <> Running)
        by (intros E; rewrite E in Hst; discriminate).
      destruct (stop_loop_leaves h c n w Hsent Hrun) as [_ Ht]. rewrite Ht.
      apply Hleave.
  - destruct (stop_loop_fails h c n w Hsent) as [code [s [w' [_ Ht]]]]. rewrite Ht.
    apply Hfail. apply IH.
Qed.

Lemma status_tryLock_once (w : W) :
  count is_tryLock (trace (run h (status c) w)) = 1%nat.
Proof.
  rewrite status_trace.
  destruct (ask h (QLockFile_tryLock _) _); [| destruct (LockError_eqb _ _)];
    reflexivity.
Qed.

Lemma stop_loop_count (f : event -> bool) (n : nat) (w : W) :
  (forall e, loop_call e = true -> f e = false) ->
  (forall e, status_call e = true -> f e = false) ->
  count f (trace (run h (stop_loop c n) w)) = 0%nat.
Proof.
  intros Hf Hs. revert n w.
  apply (stop_loop_ind (fun _ t => count f t = 0%nat)).
  - reflexivity.
  - intros n w t Ht. count_out Hf. now rewrite status_count, Ht.
  - intros n w. count_out Hf. now rewrite status_count.
  - intros n code s t Ht. count_out Hf. now rewrite Ht.
Qed.

Lemma stop_loop_tryLock (n : nat) (w : W) :
  (count is_tryLock (trace (run h (stop_loop c n) w)) <= n)%nat.
Proof.
  revert n w. apply (stop_loop_ind (fun n t => (count is_tryLock t <= n)%nat)).
  - cbn. lia.
  - intros n w t Ht.
    rewrite !count_app, status_tryLock_once, !count_cons, !count_nil. cbn. lia.
  - intros n w. rewrite !count_app, status_tryLock_once, !count_cons, !count_nil.
    cbn. lia.
  - intros n code s t Ht. rewrite !count_app, !count_cons, !count_nil. cbn. lia.
Qed.

Lemma stop_loop_sleeps (n : nat) (w : W) :
  exists k : nat, (k <= n)%nat /\ sleeps (trace (run h (stop_loop c n) w)) = repeat 500 k.
Proof.
  revert n w.
  apply (stop_loop_ind (fun n t => exists k : nat, (k <= n)%nat /\ sleeps t = repeat 500 k)).
  - exists 0%nat. split; [lia | reflexivity].
  - intros n w t [k [Hk Ht]]. exists (S k). split; [lia |].
    rewrite !sleeps_app, status_sleeps, Ht. reflexivity.
  - intros n w. exists 0%nat. split; [lia |].
    rewrite !sleeps_app, status_sleeps. reflexivity.
  - intros n code s t [k [Hk Ht]]. exists k. split; [lia |].
    rewrite !sleeps_app, Ht. reflexivity.
Qed.

End LoopInduction.

(** ** [stop], branch by branch *)

Lemma slept_repeat (t : list event) (k : nat) :
  sleeps t = repeat 500 k -> slept t = 500 * Z.of_nat k.
Proof.
  unfold slept. intros ->.
  induction k as [| k IH]; [reflexivity |].
  cbn [repeat fold_right]. rewrite IH. lia.
Qed.

Lemma if_same {A : Type} (x : bool) (a : A) : (if x then a else a) = a.
Proof. now destruct x. Qed.

Section StopBranches.
Context {W : Type} (h : handler W) (c : StandardServiceControl).

(** The three shapes of a run of the Windows branch, in one: the calls
    before the loop, the loop if it is reached, the calls after it. *)
Lemma stop_windows_shape (pid : Z) (w : W) :
  let at_ := ask h (AttachConsole (to_DWORD pid)) (next h FreeConsole w) in
  let dis := ask h (SetConsoleCtrlHandler_null true)
                 (next h (AttachConsole (to_DWORD pid)) (next h FreeConsole w)) in
  exists (code : Z) (s : string) (r f a : bool) (ok : bool) (l : list event),
    trace (run h (stop_windows c pid) w) =
    [Ev FreeConsole (ask h FreeConsole w); Ev (AttachConsole (to_DWORD pid)) at_]
    ++ (if at_ then
          [Ev (SetConsoleCtrlHandler_null true) dis]
          ++ (if dis then
                l ++ (if ok then [] else [Ev (setError "Service did not stop yet") tt])
                ++ [Ev (SetConsoleCtrlHandler_null false) r]
              else
                [Ev GetLastError code; Ev (qt_error_string (to_int code)) s;
                 Ev (setError ("Failed to disable local console handler with error: "
                               ++ s)%string) tt])
          ++ [Ev FreeConsole f]
        else
          [Ev GetLastError code; Ev (qt_error_string (to_int code)) s;
           Ev (setError ("Failed to attach to service console with error: "
                         ++ s)%string) tt])
    ++ (if ask h FreeConsole w then [Ev AllocConsole a] else [])
    /\ (exists w', l = trace (run h (stop_loop c 10) w')
                   /\ ok = result (run h (stop_loop c 10) w'))
    /\ result (run h (stop_windows c pid) w) = at_ && dis && ok.
Proof.
  cbv zeta.
  destruct (ask h (AttachConsole (to_DWORD pid)) (next h FreeConsole w)) eqn:Hat.
  - destruct (ask h (SetConsoleCtrlHandler_null true)
                  (next h (AttachConsole (to_DWORD pid)) (next h FreeConsole w)))
      eqn:Hdis.
    + destruct (stop_windows_looping h c pid w Hat Hdis) as [Hr [r [f [a Ht]]]].
      set (w3 := next h (SetConsoleCtrlHandler_null true)
                      (next h (AttachConsole (to_DWORD pid)) (next h FreeConsole w)))
        in *.
      exists 0, ""%string, r, f, a, (result (run h (stop_loop c 10) w3)),
        (trace (run h (stop_loop c 10) w3)).
      split; [| split].
      * rewrite Ht. cbn [app]. rewrite <- !app_assoc. reflexivity.
      * exists w3. split; reflexivity.
      * exact Hr.
    + destruct (stop_windows_undisabled h c pid w Hat Hdis)
        as [Hr [code [s [f [a Ht]]]]].
      exists code, s, true, f, a, (result (run h (stop_loop c 10) w)),
        (trace (run h (stop_loop c 10) w)).
      split; [| split].
      * rewrite Ht. reflexivity.
      * exists w. split; reflexivity.
      * exact Hr.
  - destruct (stop_windows_unattached h c pid w Hat) as [Hr [code [s [a Ht]]]].
    exists code, s, true, true, a, (result (run h (stop_loop c 10) w)),
      (trace (run h (stop_loop c 10) w)).
    split; [| split].
    + rewrite Ht. reflexivity.
    + exists w. split; reflexivity.
    + exact Hr.
Qed.

End StopBranches.


Lemma loop_call_signal (e : event) : loop_call e = true -> signal_call e = true.
Proof. destruct e as [X c x]. destruct c; simpl; congruence. Qed.

Section StopCounting.
Context {W : Type} (h : handler W) (b : Build) (c : StandardServiceControl).

Lemma stop_windows_count (f : event -> bool) (pid : Z) (w : W) :
  (forall e, signal_call e = true -> f e = false) ->
  (forall e, status_call e = true -> f e = false) ->
  count f (trace (run h (stop_windows c pid) w)) = 0%nat.
Proof.
  intros Hf Hs.
  destruct (stop_windows_shape h c pid w)
    as [code [s [r [g [a [ok [l [Ht [[w' [Hl _]] _]]]]]]]]].
  cbv zeta in Ht. rewrite Ht, Hl.
  destruct (ask h (AttachConsole _) _);
    [destruct (ask h (SetConsoleCtrlHandler_null true) _) |];
    destruct ok, (ask h FreeConsole w);
    count_out Hf;
    rewrite ?stop_loop_count
      by (assumption || (intros e He; apply Hf; now apply loop_call_signal));
    reflexivity.
Qed.

(** Of a kind of call that neither [stop] itself nor [status] makes, a run of
    [stop] has none. *)
Lemma stop_count (f : event -> bool) (w : W) :
  (forall e, signal_call e = true -> f e = false) ->
  (forall e, status_call e = true -> f e = false) ->
  count f (trace (run h (stop b c) w)) = 0%nat.
Proof.
  intros Hf Hs. unfold stop. run_step.
  rewrite count_app, status_count by assumption.
  destruct (Status_eqb _ _); run_step; [count_out Hf; reflexivity |].
  rewrite count_app, getPid_count by auto.
  destruct (_ =? -1); run_step; [count_out Hf; reflexivity |].
  destruct (Q_OS_WIN b); [now rewrite stop_windows_count |].
  unfold stop_posix. run_step. count_out Hf. reflexivity.
Qed.

Lemma stop_windows_bounds (pid : Z) (w : W) :
  let t := trace (run h (stop_windows c pid) w) in
  (count is_interrupt t <= 10)%nat
  /\ (count is_tryLock t <= 10)%nat
  /\ exists k : nat, (k <= 10)%nat /\ sleeps t = repeat 500 k.
Proof.
  cbv zeta.
  destruct (stop_windows_shape h c pid w)
    as [code [s [r [g [a [ok [l [Ht [[w' [Hl _]] _]]]]]]]]].
  cbv zeta in Ht. rewrite Ht, Hl. clear Ht Hl.
  destruct (stop_loop_bound h c 10 w') as [B1 _].
  pose proof (stop_loop_tryLock h c 10 w') as B2.
  destruct (stop_loop_sleeps h c 10 w') as [k [Hk B3]].
  destruct (ask h (AttachConsole _) _);
    [destruct (ask h (SetConsoleCtrlHandler_null true) _) |];
    destruct ok, (ask h FreeConsole w);
    rewrite ?count_app, ?count_cons, ?count_nil, ?sleeps_app;
    cbn [is_interrupt is_tryLock sleeps app];
    (split; [lia | split; [lia |]]);
    solve [ exists 0%nat; split; [lia | reflexivity]
          | exists k; split; [exact Hk | now rewrite B3, ?app_nil_r] ].
Qed.

End StopCounting.

Ltac bound_trivial :=
  split; [lia | split; [lia | split;
    [exists 0%nat; split; [lia | reflexivity] | intros _; repeat split]]].

(** X2. [stop] is bounded on every system, in every state and build: at
    most 10 interrupt events, at most 11 [tryLock] calls, at most 10 sleeps of
    500 ms each, so at most 5000 ms slept in all.  Where [blocking] reports
    [NonBlocking] it never sleeps, never generates an interrupt event and
    looks at the lock once. *)
Theorem stop_bounded {W : Type} (h : handler W) (b : Build)
    (c : StandardServiceControl) (w : W) :
  let t := trace (run h (stop b c) w) in
  (count is_interrupt t <= 10)%nat
  /\ (count is_tryLock t <= 11)%nat
  /\ (exists k : nat, (k <= 10)%nat /\ sleeps t = repeat 500 k)
  /\ slept t <= 5000
  /\ (blocking b = NonBlocking ->
      sleeps t = [] /\ count is_interrupt t = 0%nat /\ count is_tryLock t = 1%nat).
Proof.
  cbv zeta.
  assert (Main :
    (count is_interrupt (trace (run h (stop b c) w)) <= 10)%nat
    /\ (count is_tryLock (trace (run h (stop b c) w)) <= 11)%nat
    /\ (exists k : nat, (k <= 10)%nat
                        /\ sleeps (trace (run h (stop b c) w)) = repeat 500 k)
    /\ (Q_OS_WIN b = false ->
        sleeps (trace (run h (stop b c) w)) = []
        /\ count is_interrupt (trace (run h (stop b c) w)) = 0%nat
        /\ count is_tryLock (trace (run h (stop b c) w)) = 1%nat)).
  { unfold stop. run_step.
    rewrite !count_app, sleeps_app, status_sleeps, status_tryLock_once,
      status_signals by auto.
    cbn [app].
    destruct (Status_eqb _ _); run_step.
    - rewrite app_nil_r, qCDebug_trace.
      destruct (ask h isDebugEnabled _); run_step; cbn; bound_trivial.
    - rewrite !count_app, sleeps_app, getPid_trace. cbn [sleeps app].
      rewrite !count_cons, !count_nil. cbn [is_interrupt is_tryLock].
      destruct (_ =? -1); run_step.
      + cbn. bound_trivial.
      + destruct (Q_OS_WIN b).
        * destruct (stop_windows_bounds h c
                      (result (run h (getPid c) (world (run h (status c) w))))
                      (world (run h (getPid c) (world (run h (status c) w)))))
            as [B1 [B2 B3]].
          split; [lia | split; [lia | split; [exact B3 | discriminate]]].
        * unfold stop_posix. run_step. cbn. bound_trivial. }
  destruct Main as [M1 [M2 [[k [Hk M3]] M4]]].
  repeat split; try assumption.
  - exists k. split; assumption.
  - rewrite (slept_repeat _ k M3). lia.
  - apply M4. unfold blocking in *. destruct (Q_OS_WIN b); [discriminate | reflexivity].
  - apply M4. unfold blocking in *. destruct (Q_OS_WIN b); [discriminate | reflexivity].
  - apply M4. unfold blocking in *. destruct (Q_OS_WIN b); [discriminate | reflexivity].
Qed.

Lemma stop_bounded_witness :
  sleeps (trace (run (sim quiet) (stop posix_build (myservice false)) (busy 4242))) = [].
Proof.
  apply (proj2 (proj2 (proj2 (proj2
           (stop_bounded (sim quiet) posix_build (myservice false) (busy 4242)))))).
  reflexivity.
Defined.

(** Discharge "this kind of call is none of those": by cases on the call. *)
Ltac by_call := let X := fresh in let c := fresh in let x := fresh in
  intros [X c x]; destruct c; simpl; solve [congruence | auto | now destruct x].

(** X3. [start] and [stop] keep to their own means.  No run of [stop], in
    any build, searches for an executable or touches a [QProcess]; no run of
    [start] (in a build with [QProcess]) makes a [kill] or console call or
    sleeps, and each looks at the lock exactly once. *)
Theorem start_and_stop_apart {W : Type} (h : handler W) (b : Build)
    (c : StandardServiceControl) (w : W) :
  count is_launch (trace (run h (stop b c) w)) = 0%nat
  /\ (QT_CONFIG_process b = true ->
      count is_signal (trace (run h (start b c) w)) = 0%nat
      /\ count is_sleep (trace (run h (start b c) w)) = 0%nat
      /\ count is_tryLock (trace (run h (start b c) w)) = 1%nat).
Proof.
  split.
  - apply stop_count; by_call.
  - intros Hcfg. repeat split.
    + rewrite (start_count h b c w Hcfg) by by_call. apply status_count. by_call.
    + rewrite (start_count h b c w Hcfg) by by_call. apply status_count. by_call.
    + rewrite (start_count h b c w Hcfg) by by_call. apply status_tryLock_once.
Qed.

Lemma start_and_stop_apart_witness :
  count is_signal
    (trace (run (sim quiet) (start posix_build (myservice true)) idle)) = 0%nat.
Proof.
  apply (proj2 (start_and_stop_apart (sim quiet) posix_build (myservice true) idle)).
  reflexivity.
Defined.

(** X4. The Windows branch puts the console back on every path.  Once
    [stop] has reached the branch: [FreeConsole] is called once at the start
    and once more exactly when [AttachConsole] succeeded; the local handler
    is switched off exactly when [AttachConsole] succeeded and switched back
    on exactly when switching it off succeeded; [AllocConsole] is called
    exactly when the caller had a console, and then it is the last call of
    the run. *)
Theorem stop_windows_console_restored {W : Type} (h : handler W) (b : Build)
    (c : StandardServiceControl) (w : W) :
  Q_OS_WIN b = true ->
  signalling h c w ->
  let t := trace (run h (stop b c) w) in
  count is_FreeConsole t = (if attached h c w then 2 else 1)%nat
  /\ count is_handler_off t = (if attached h c w then 1 else 0)%nat
  /\ count is_handler_on t =
     (if attached h c w && disabled h c w then 1 else 0)%nat
  /\ count is_AllocConsole t = (if had_console h c w then 1 else 0)%nat
  /\ (had_console h c w = true ->
      exists (t' : list event) (a : bool), t = t' ++ [Ev AllocConsole a]).
Proof.
  intros Hos Hsig. cbv zeta.
  destruct (stop_fork h b c w Hsig) as [_ [_ Ht]]. rewrite Hos in Ht.
  rewrite Ht. clear Ht.
  unfold attached, disabled, had_console, disable_state, attach_state.
  destruct (stop_windows_shape h c (resolved_pid h c w) (stop_entry h c w))
    as [code [s [r [g [a [ok [l [Ht [[w' [Hl _]] _]]]]]]]]].
  cbv zeta in Ht. rewrite Ht, Hl. clear Ht Hl.
  assert (E : forall f, (forall e, status_call e = true -> f e = false) ->
                        (forall e, launch_call e = true -> f e = false) ->
                        count f (stop_entry_trace h c w) = 0%nat).
  { intros f H1 H2. unfold stop_entry_trace.
    now rewrite count_app, status_count, getPid_count by auto. }
  assert (L : forall f, (forall e, status_call e = true -> f e = false) ->
                        (forall e, loop_call e = true -> f e = false) ->
                        count f (trace (run h (stop_loop c 10) w')) = 0%nat).
  { intros f H1 H2. now apply stop_loop_count. }
  rewrite !count_app, !E by by_call.
  destruct (ask h (AttachConsole _) _);
    [destruct (ask h (SetConsoleCtrlHandler_null true) _) |];
    destruct ok, (ask h FreeConsole (stop_entry h c w));
    rewrite ?count_app, ?L by by_call;
    rewrite ?count_cons, ?count_nil;
    cbn [is_FreeConsole is_handler_off is_handler_on is_AllocConsole andb];
    (repeat split; try reflexivity; try discriminate);
    intros _; rewrite ?app_assoc; do 2 eexists; reflexivity.
Qed.

Lemma stop_windows_console_restored_witness :
  count is_FreeConsole
    (trace (run (sim quiet) (stop windows_build (myservice false)) (stubborn 4242)))
  = 2%nat
  /\ count is_handler_on
       (trace (run (sim quiet) (stop windows_build (myservice false)) (stubborn 4242)))
     = 1%nat.
Proof.
  assert (S : signalling (sim quiet) (myservice false) (stubborn 4242))
    by (split; intros E; vm_compute in E; discriminate).
  destruct (stop_windows_console_restored (sim quiet) windows_build
              (myservice false) (stubborn 4242) eq_refl S) as [H1 [_ [H3 _]]].
  split.
  - rewrite H1. vm_compute. reflexivity.
  - rewrite H3. vm_compute. reflexivity.
Defined.

Lemma stop_without_pid_quiet {W : Type} (h : handler W) (b : Build)
    (c : StandardServiceControl) (w : W) :
  result (run h (status c) w) <> Stopped ->
  resolved_pid h c w = -1 ->
  count is_signal (trace (run h (stop b c) w)) = 0%nat.
Proof.
  intros Hst Hpid. unfold resolved_pid in Hpid.
  unfold stop. run_step. rewrite (Status_eqb_neq _ _ Hst). run_step.
  rewrite Hpid. cbn [Z.eqb Pos.eqb]. run_step.
  rewrite !count_app, status_signals, getPid_trace by auto. reflexivity.
Qed.

(** X5. When the service is not reported stopped and [getPid] gives -1,
    [stop] returns false, its last message is "Failed to get pid of running
    service", and it makes no signal or console call, in any build. *)
Theorem stop_without_pid {W : Type} (h : handler W) (b : Build)
    (c : StandardServiceControl) (w : W) :
  result (run h (status c) w) <> Stopped ->
  resolved_pid h c w = -1 ->
  let o := run h (stop b c) w in
  result o = false
  /\ last (errors (trace o)) ""%string = "Failed to get pid of running service"%string
  /\ count is_signal (trace o) = 0%nat.
Proof.
  intros Hst Hpid. unfold resolved_pid in Hpid. cbv zeta.
  unfold stop. run_step. rewrite (Status_eqb_neq _ _ Hst). run_step.
  rewrite Hpid. cbn [Z.eqb Pos.eqb]. run_step.
  split; [reflexivity | split].
  - rewrite !errors_app. cbn [errors]. rewrite !app_assoc. apply last_last.
  - rewrite !count_app, status_signals, getPid_trace by auto. reflexivity.
Qed.

Lemma stop_without_pid_witness :
  result (run (sim denied) (stop posix_build (myservice false)) (busy 4242)) = false.
Proof.
  apply (stop_without_pid (sim denied) posix_build (myservice false) (busy 4242)).
  - vm_compute. discriminate.
  - vm_compute. reflexivity.
Defined.

(** X6. [stop] reaches for the signal or console mechanism exactly when the
    service is not reported stopped and a PID other than -1 was read. *)
Theorem stop_signals_iff {W : Type} (h : handler W) (b : Build)
    (c : StandardServiceControl) (w : W) :
  count is_signal (trace (run h (stop b c) w)) = 0%nat
  <-> (result (run h (status c) w) = Stopped \/ resolved_pid h c w = -1).
Proof.
  split.
  - intros Hz.
    destruct (Status_eqb (result (run h (status c) w)) Stopped) eqn:Est.
    + left. destruct (result (run h (status c) w)); simpl in Est; congruence.
    + destruct (Z.eq_dec (resolved_pid h c w) (-1)) as [E | E]; [now right |].
      exfalso.
      assert (Hsig : signalling h c w).
      { split; [| exact E]. intros E'. rewrite E' in Est. discriminate. }
      destruct (stop_fork h b c w Hsig) as [_ [_ Ht]]. rewrite Ht in Hz.
      rewrite count_app in Hz.
      destruct (Q_OS_WIN b).
      * destruct (stop_windows_shape h c (resolved_pid h c w) (stop_entry h c w))
          as [code [s [r [g [a [ok [l [Hs _]]]]]]]].
        cbv zeta in Hs. rewrite Hs in Hz. cbn [app] in Hz.
        rewrite count_cons in Hz. cbn [is_signal] in Hz. lia.
      * unfold stop_posix in Hz. revert Hz. run_step.
        rewrite count_cons. cbn [is_signal]. lia.
  - intros [Hst | Hpid].
    + apply stop_stopped. exact Hst.
    + destruct (Status_eqb (result (run h (status c) w)) Stopped) eqn:Est.
      * apply stop_stopped.
        destruct (result (run h (status c) w)); simpl in Est; congruence.
      * apply stop_without_pid_quiet; [| exact Hpid].
        intros E'. rewrite E' in Est. discriminate.
Qed.

(** X7. [status] hands a message to [setError] exactly when it answers
    [Unknown]; when it answers [Running] or [Stopped] it leaves the
    controller's error as it was. *)
Theorem status_error_iff_unknown {W : Type} (h : handler W)
    (c : StandardServiceControl) (w : W) :
  errors (trace (run h (status c) w)) = []
  <-> result (run h (status c) w) <> Unknown.
Proof.
  rewrite status_trace, status_result.
  destruct (ask h (QLockFile_tryLock _) _); [| destruct (LockError_eqb _ _)];
    cbn [errors]; split; intros H; congruence.
Qed.

(** ** [start]: what it reports *)

Lemma launch_errors_app (s t : list event) :
  launch_errors (s ++ t) = launch_errors s ++ launch_errors t.
Proof.
  induction s as [| [X c x] s IH]; simpl; [reflexivity |].
  destruct c; simpl; now rewrite IH.
Qed.

Lemma grown_differs {A : Type} (l : list A) (a : A) : l ++ [a] <> l.
Proof.
  intros E. apply (f_equal (@List.length A)) in E.
  rewrite length_app in E. simpl in E. lia.
Qed.

Section StartReports.
Context {W : Type} (h : handler W) (b : Build) (c : StandardServiceControl) (w : W).

Lemma status_launch_errors : launch_errors (trace (run h (status c) w)) = [].
Proof.
  rewrite status_trace.
  destruct (ask h (QLockFile_tryLock _) _); [| destruct (LockError_eqb _ _)];
    reflexivity.
Qed.

Lemma qCDebug_launch_errors (line : Prog (list LogItem)) (w' : W) :
  (forall w'', launch_errors (trace (run h line w'')) = []) ->
  launch_errors (trace (run h (qCDebug line) w')) = [].
Proof.
  intros H. rewrite qCDebug_trace. cbn [launch_errors].
  destruct (ask h isDebugEnabled w'); [| reflexivity].
  now rewrite launch_errors_app, H.
Qed.

End StartReports.

Ltac reports_out :=
  repeat first
    [ rewrite errors_app
    | rewrite launch_errors_app
    | rewrite status_launch_errors
    | rewrite qCDebug_errors by (intros; reflexivity)
    | rewrite qCDebug_launch_errors by (intros; reflexivity)
    | rewrite app_nil_r
    | progress cbn [errors launch_errors app] ].

(** X8. [start] fails exactly when it reports.  In a build with
    [QProcess]: [start] returns true exactly when it hands no message of its
    own to [setError]; when it returns false the service was not reported
    running and exactly one message was added, which is the missing-executable
    message when the search found nothing, and otherwise "Failed to start
    service process with error: " followed by what [QProcess::errorString]
    answered. *)
Theorem start_fails_iff_reports {W : Type} (h : handler W) (b : Build)
    (c : StandardServiceControl) (w : W) :
  QT_CONFIG_process b = true ->
  let o := run h (start b c) w in
  (result o = true <-> errors (trace o) = errors (trace (run h (status c) w)))
  /\ (result o = false ->
      result (run h (status c) w) <> Running
      /\ exists msg : string,
           errors (trace o) = errors (trace (run h (status c) w)) ++ [msg]
           /\ if (found_executable h c w =? "")%string then
                msg = ("Unabled to find executable for service with id "
                       ++ dquote ++ serviceId c ++ dquote)%string
              else
                exists s : string,
                  launch_errors (trace o) = [s]
                  /\ msg = ("Failed to start service process with error: "
                            ++ s)%string).
Proof.
  intros Hcfg. cbv zeta. unfold start, found_executable. rewrite Hcfg. run_step.
  destruct (Status_eqb _ _) eqn:Est; run_step.
  - assert (Hg : forall w', errors (trace (run h
               (pid <- getPid c ;;
                Ret [LStr "Service already running with PID"; LInt pid]) w')) = []).
    { intros w'. run_step. now rewrite getPid_trace. }
    rewrite !errors_app, (qCDebug_errors h _ _ Hg). cbn [errors]. rewrite !app_nil_r.
    split; [split; reflexivity | discriminate].
  - assert (Hst : result (run h (status c) w) <> Running)
      by (intros E; rewrite E in Est; discriminate).
    destruct (_ =? _)%string eqn:Ebin; run_step.
    + rewrite msg_executable. reports_out.
      split; [split; [discriminate | intros E; now apply grown_differs in E] |].
      intros _. split; [exact Hst |]. eexists. split; reflexivity.
    + destruct (_debugMode c); run_step.
      * set (p := setInputChannelMode _ _).
        destruct (ask h (QProcess_waitForStarted p) _); run_step;
          rewrite ?msg_spawn; reports_out.
        -- split; [split; reflexivity | discriminate].
        -- split; [split; [discriminate | intros E; now apply grown_differs in E] |].
           intros _. split; [exact Hst |]. eexists. split; [reflexivity |].
           eexists. split; reflexivity.
      * set (p := setStandardErrorFile _ _).
        destruct (ask h (QProcess_startDetached p 0) _) as [[] pid] eqn:E;
          cbn [negb]; run_step; rewrite ?msg_spawn; reports_out.
        -- split; [split; reflexivity | discriminate].
        -- split; [split; [discriminate | intros E'; now apply grown_differs in E'] |].
           intros _. split; [exact Hst |]. eexists. split; [reflexivity |].
           eexists. split; reflexivity.
Qed.

Lemma start_fails_iff_reports_witness :
  result (run (sim jammed) (status (myservice false)) idle) <> Running
  /\ exists msg : string,
       errors (trace (run (sim jammed) (start posix_build (myservice false)) idle)) =
       errors (trace (run (sim jammed) (status (myservice false)) idle)) ++ [msg]
       /\ exists s : string,
            launch_errors
              (trace (run (sim jammed) (start posix_build (myservice false)) idle)) = [s]
            /\ msg = ("Failed to start service process with error: " ++ s)%string.
Proof.
  destruct (start_fails_iff_reports (sim jammed) posix_build (myservice false) idle
              eq_refl) as [_ H].
  apply H. vm_compute. reflexivity.
Defined.

(** X9. What [start] launches.  In a build with [QProcess], on any system
    and in any state: [start] launches at most one process; its program is
    the path the search returned, never the service id itself; in debug mode
    it is started with [QProcess::start], its channels forwarded to the
    caller's; otherwise it is started with [QProcess::startDetached], its
    three standard channels on the null device. *)
Theorem start_launch_io {W : Type} (h : handler W) (b : Build)
    (c : StandardServiceControl) (w : W) :
  QT_CONFIG_process b = true ->
  let t := trace (run h (start b c) w) in
  (List.length (spawns t) <= 1)%nat
  /\ Forall (fun p => program p = found_executable h c w /\ launch_io b c p) (spawns t)
  /\ count is_detached_launch t =
     (if _debugMode c then 0 else List.length (spawns t))%nat.
Proof.
  intros Hcfg. cbv zeta. split; [| split].
  - rewrite (start_spawns h b c w Hcfg).
    destruct (Status_eqb _ _); [simpl; lia |].
    destruct (_ =? _)%string; simpl; lia.
  - rewrite (start_spawns h b c w Hcfg).
    destruct (Status_eqb _ _); [constructor |].
    destruct (_ =? _)%string; constructor; [| constructor].
    split; [apply service_process_spec |].
    unfold launch_io, service_process. destruct (_debugMode c); now repeat split.
  - rewrite (start_spawns h b c w Hcfg).
    unfold start, found_executable. rewrite Hcfg. run_step.
    rewrite count_app, status_count by by_call.
    destruct (Status_eqb _ _); run_step.
    + rewrite count_app, count_nil, Nat.add_0_r. cbn [List.length].
      rewrite if_same. apply log_count; [right; by_call |].
      intros w'. run_step.
      rewrite count_app, count_nil, getPid_count; [reflexivity | right; by_call].
    + destruct (_ =? _)%string; run_step;
        [rewrite count_cons, count_cons, count_nil; now destruct (_debugMode c) |].
      destruct (_debugMode c); run_step.
      * set (p := setInputChannelMode _ _).
        destruct (ask h (QProcess_waitForStarted p) _); run_step;
          repeat first
            [ rewrite count_app | rewrite count_cons | rewrite count_nil
            | rewrite qCDebug_count by (intros; reflexivity)
            | progress cbn [is_detached_launch] ];
          reflexivity.
      * set (p := setStandardErrorFile _ _).
        destruct (ask h (QProcess_startDetached p 0) _) as [[] pid] eqn:E;
          cbn [negb]; run_step;
          repeat first
            [ rewrite count_app | rewrite count_cons | rewrite count_nil
            | rewrite qCDebug_count by (intros; reflexivity)
            | progress cbn [is_detached_launch] ];
          reflexivity.
Qed.

Lemma start_launch_io_witness :
  count is_detached_launch
    (trace (run (sim quiet) (start posix_build (myservice false)) idle))
  = List.length
      (spawns (trace (run (sim quiet) (start posix_build (myservice false)) idle))).
Proof.
  apply (proj2 (proj2 (start_launch_io (sim quiet) posix_build (myservice false) idle
                         eq_refl))).
Defined.

(** ** [supportFlags] *)

(** X10. With the three enumerators on single bits, the bits of
    [supportFlags] are: the [Status] bit and the [Stop] bit, always; the
    [Start] bit, exactly in a build with [QProcess]; and no other bit. *)
Theorem supportFlags_bits (F : SupportFlag) (b : Build) (kstatus kstop kstart n : Z) :
  0 <= kstatus -> 0 <= kstop -> 0 <= kstart ->
  SupportFlag_Status F = 2 ^ kstatus ->
  SupportFlag_Stop F = 2 ^ kstop ->
  SupportFlag_Start F = 2 ^ kstart ->
  Z.testbit (supportFlags F b) n =
  (kstatus =? n) || (kstop =? n) || (QT_CONFIG_process b && (kstart =? n)).
Proof.
  intros H1 H2 H3 E1 E2 E3. unfold supportFlags. rewrite E1, E2, E3.
  destruct (QT_CONFIG_process b); rewrite ?Z.lor_spec, !Z.pow2_bits_eqb by assumption;
    cbn [andb]; now rewrite ?orb_false_r.
Qed.

Lemma supportFlags_bits_witness :
  Z.testbit (supportFlags flags_example posix_build) 0 = true
  /\ Z.testbit (supportFlags flags_example posix_build) 2 = false.
Proof.
  split.
  - rewrite (supportFlags_bits flags_example posix_build 8 1 0 0);
      [reflexivity | lia | lia | lia | reflexivity | reflexivity | reflexivity].
  - rewrite (supportFlags_bits flags_example posix_build 8 1 0 2);
      [reflexivity | lia | lia | lia | reflexivity | reflexivity | reflexivity].
Defined.

(** ** [serviceName] *)

Lemma append_assoc (a b c : string) : ((a ++ b) ++ c)%string = (a ++ (b ++ c))%string.
Proof. induction a as [| x a IH]; simpl; [reflexivity | now rewrite IH]. Qed.

Lemma append_eq_empty (a b : string) :
  (a ++ b)%string = ""%string -> a = ""%string /\ b = ""%string.
Proof. destruct a; simpl; [auto | discriminate]. Qed.

Lemma occurs_app (x : ascii) (a b : string) :
  occurs x (a ++ b)%string = occurs x a || occurs x b.
Proof.
  induction a as [| y a IH]; simpl; [reflexivity |].
  now rewrite IH, orb_assoc.
Qed.

Lemma split_from_app (sep : ascii) (s1 s2 cur : string) :
  split_from sep (s1 ++ String sep s2)%string cur =
  split_from sep s1 cur ++ split_from sep s2 "".
Proof.
  revert cur. induction s1 as [| a s1 IH]; intros cur; simpl.
  - rewrite Ascii.eqb_refl. now destruct (cur =? "")%string.
  - destruct (Ascii.eqb a sep).
    + destruct (cur =? "")%string; simpl; now rewrite IH.
    + apply IH.
Qed.

Lemma split_from_plain (sep : ascii) (s cur : string) :
  occurs sep s = false ->
  split_from sep s cur =
  if ((cur ++ s)%string =? "")%string then [] else [(cur ++ s)%string].
Proof.
  revert cur. induction s as [| a s IH]; intros cur H; simpl in *.
  - now rewrite append_nil_r.
  - apply orb_false_iff in H. destruct H as [Ha Hs]. rewrite Ha.
    rewrite IH by exact Hs. now rewrite append_assoc.
Qed.

Lemma split_from_pieces (sep : ascii) (s cur : string) :
  occurs sep cur = false ->
  Forall (fun n => n <> ""%string /\ occurs sep n = false) (split_from sep s cur).
Proof.
  revert cur. induction s as [| a s IH]; intros cur H; simpl.
  - destruct (cur =? "")%string eqn:E; [constructor |].
    constructor; [| constructor].
    split; [| exact H]. intros ->. discriminate.
  - destruct (Ascii.eqb a sep) eqn:Ea.
    + destruct (cur =? "")%string eqn:E.
      * apply IH. reflexivity.
      * constructor; [| apply IH; reflexivity].
        split; [| exact H]. intros ->. discriminate.
    + apply IH. rewrite occurs_app, H. simpl. now rewrite Ea.
Qed.

Lemma split_from_nil (sep : ascii) (s cur : string) :
  split_from sep s cur = [] <-> cur = ""%string /\ only sep s = true.
Proof.
  revert cur. induction s as [| a s IH]; intros cur; simpl.
  - destruct (cur =? "")%string eqn:E.
    + apply String.eqb_eq in E. tauto.
    + apply String.eqb_neq in E. split; [discriminate | tauto].
  - destruct (Ascii.eqb a sep) eqn:Ea; simpl.
    + destruct (cur =? "")%string eqn:E.
      * apply String.eqb_eq in E. rewrite IH. tauto.
      * apply String.eqb_neq in E. split; [discriminate | tauto].
    + rewrite IH. split; [| intros [_ H]; discriminate].
      intros [H _]. apply append_eq_empty in H. destruct H. discriminate.
Qed.

Lemma QList_last_snoc (l : list string) (x : string) : QList_last (l ++ [x]) = Some x.
Proof.
  induction l as [| y l IH]; [reflexivity |].
  simpl. rewrite IH. now destruct (l ++ [x]) eqn:E; [destruct l; discriminate |].
Qed.

Lemma QList_last_In (l : list string) (x : string) : QList_last l = Some x -> In x l.
Proof.
  induction l as [| y l IH]; simpl; [discriminate |].
  destruct l; [intros [= ->]; now left | intros H; right; now apply IH].
Qed.

Lemma QList_last_None (l : list string) : QList_last l = None <-> l = [].
Proof.
  induction l as [| y l IH]; simpl; [tauto |].
  destruct l; [split; discriminate |].
  rewrite IH. split; discriminate.
Qed.

Lemma split_from_only (sep : ascii) (t cur : string) :
  only sep t = true ->
  split_from sep t cur = if (cur =? "")%string then [] else [cur].
Proof.
  revert cur. induction t as [| a t IH]; intros cur H; simpl in *; [reflexivity |].
  apply andb_true_iff in H. destruct H as [Ha Ht]. rewrite Ha.
  destruct (cur =? "")%string; now rewrite IH.
Qed.

Lemma split_from_plain_then (sep : ascii) (s t cur : string) :
  occurs sep s = false ->
  split_from sep (s ++ t)%string cur = split_from sep t (cur ++ s)%string.
Proof.
  revert cur. induction s as [| a s IH]; intros cur H; simpl in *.
  - now rewrite append_nil_r.
  - apply orb_false_iff in H. destruct H as [Ha Hs]. rewrite Ha.
    rewrite IH by exact Hs. now rewrite append_assoc.
Qed.

(** X11. For a service id that is not an executable file, [serviceName] is
    the part after the last slash that has something after it: of [dir/name]
    followed by any number of slashes, with [name] non-empty and without a
    slash, it is [name], whatever [dir] is; so is it of [name] followed by
    any number of slashes, and of [name] itself. *)
Theorem serviceName_last_component (fs : QFileInfo) (debug : bool)
    (dir name slashes : string) :
  name <> ""%string ->
  occurs "/"%char name = false ->
  only "/"%char slashes = true ->
  (isExecutable fs (dir ++ "/" ++ name ++ slashes)%string = false ->
   serviceName fs (mkControl debug (dir ++ "/" ++ name ++ slashes)%string) = Some name)
  /\ (isExecutable fs (name ++ slashes)%string = false ->
      serviceName fs (mkControl debug (name ++ slashes)%string) = Some name)
  /\ (isExecutable fs name = false ->
      serviceName fs (mkControl debug name) = Some name).
Proof.
  intros Hne Hsl Hon.
  assert (Hnb : (name =? "")%string = false) by (now apply String.eqb_neq).
  assert (Htail : split_from "/"%char (name ++ slashes)%string "" = [name]).
  { rewrite split_from_plain_then by exact Hsl. cbn [append].
    rewrite split_from_only by exact Hon. now rewrite Hnb. }
  assert (Hname : split_from "/"%char name "" = [name]).
  { rewrite split_from_plain by exact Hsl. cbn [append]. now rewrite Hnb. }
  unfold serviceName, split_SkipEmptyParts. cbn [serviceId].
  split; [| split]; intros ->.
  - change (dir ++ "/" ++ name ++ slashes)%string
      with (dir ++ String "/"%char (name ++ slashes))%string.
    rewrite split_from_app, Htail. apply QList_last_snoc.
  - now rewrite Htail.
  - now rewrite Hname.
Qed.

Lemma serviceName_last_component_witness :
  serviceName no_files (mkControl false "/usr/local/bin/myservice//")
  = Some "myservice"%string.
Proof.
  apply (proj1 (serviceName_last_component no_files false "/usr/local/bin" "myservice"
                  "//" ltac:(discriminate) eq_refl eq_refl)).
  reflexivity.
Defined.

(** X12. For a service id that is not an executable file: [serviceName]
    calls [last()] on an empty list exactly when the id has no character
    other than the slash (the empty id among them); otherwise the name is
    non-empty and has no slash in it. *)
Theorem serviceName_edge (fs : QFileInfo) (c : StandardServiceControl) :
  isExecutable fs (serviceId c) = false ->
  (serviceName fs c = None <-> only "/"%char (serviceId c) = true)
  /\ (forall n, serviceName fs c = Some n ->
                n <> ""%string /\ occurs "/"%char n = false).
Proof.
  intros Hx. unfold serviceName, split_SkipEmptyParts. rewrite Hx. split.
  - rewrite QList_last_None, split_from_nil. tauto.
  - intros n Hn. apply QList_last_In in Hn.
    pose proof (split_from_pieces "/"%char (serviceId c) "" eq_refl) as HF.
    rewrite Forall_forall in HF. now apply HF.
Qed.

Lemma serviceName_edge_witness :
  serviceName no_files (mkControl false "//") = None.
Proof.
  apply (proj1 (serviceName_edge no_files (mkControl false "//") eq_refl)).
  reflexivity.
Defined.

(** ** The PID handed to the system *)

Lemma kill_targets_app (s t : list event) :
  kill_targets (s ++ t) = kill_targets s ++ kill_targets t.
Proof.
  induction s as [| [X c x] s IH]; simpl; [reflexivity |].
  destruct c; simpl; now rewrite IH.
Qed.

Lemma to_pid_t_range (z : Z) : - 2^31 <= to_pid_t z < 2^31.
Proof.
  unfold to_pid_t. pose proof (Z.mod_pos_bound (z + 2^31) (2^32) ltac:(lia)). lia.
Qed.

Lemma to_pid_t_congruent (z : Z) : (to_pid_t z - z) mod 2^32 = 0.
Proof.
  unfold to_pid_t.
  replace ((z + 2^31) mod 2^32 - 2^31 - z)
    with (- (2^32 * ((z + 2^31) / 2^32)))
    by (pose proof (Z.div_mod (z + 2^31) (2^32) ltac:(lia)); lia).
  rewrite <- Z.mul_opp_r, Z.mul_comm. apply Z.mod_mul. lia.
Qed.

(** X13. On the POSIX branch the one [kill] call of [stop] gets the PID
    read from the lock file reduced to [pid_t]: a value between -2^31 and
    2^31 - 1 that differs from the PID read by a multiple of 2^32, and that
    is the PID read exactly when this lies in that range. *)
Theorem stop_posix_kill_target {W : Type} (h : handler W) (b : Build)
    (c : StandardServiceControl) (w : W) :
  Q_OS_WIN b = false ->
  signalling h c w ->
  exists target : Z,
    kill_targets (trace (run h (stop b c) w)) = [target]
    /\ - 2^31 <= target < 2^31
    /\ (target - resolved_pid h c w) mod 2^32 = 0
    /\ (target = resolved_pid h c w <-> - 2^31 <= resolved_pid h c w < 2^31).
Proof.
  intros Hos Hsig. exists (to_pid_t (resolved_pid h c w)).
  destruct (stop_fork h b c w Hsig) as [_ [_ Ht]]. rewrite Hos in Ht. rewrite Ht.
  unfold stop_posix, stop_entry_trace. run_step.
  rewrite !kill_targets_app, status_trace, getPid_trace.
  split; [| split; [apply to_pid_t_range | split; [apply to_pid_t_congruent |]]].
  - destruct (ask h (QLockFile_tryLock _) _); [| destruct (LockError_eqb _ _)];
      reflexivity.
  - split; [| apply to_pid_t_id].
    intros E. rewrite <- E. apply to_pid_t_range.
Qed.

Lemma stop_posix_kill_target_witness :
  exists target : Z,
    kill_targets (trace (run (sim quiet) (stop posix_build (myservice false))
                             (busy 4242))) = [target]
    /\ - 2^31 <= target < 2^31
    /\ (target - resolved_pid (sim quiet) (myservice false) (busy 4242)) mod 2^32 = 0
    /\ (target = resolved_pid (sim quiet) (myservice false) (busy 4242)
        <-> - 2^31 <= resolved_pid (sim quiet) (myservice false) (busy 4242) < 2^31).
Proof.
  apply (stop_posix_kill_target (sim quiet) posix_build (myservice false) (busy 4242)
           eq_refl).
  split; intros E; vm_compute in E; discriminate.
Defined.

(** X14. [callGenericCommand] answers with the invalid variant exactly for
    a kind other than "getPid": a "getPid" that finds no PID answers with
    the number -1, not with the invalid variant. *)
Theorem callGenericCommand_invalid_iff {W : Type} (h : handler W)
    (c : StandardServiceControl) (kind : string) (args : list QVariant) (w : W) :
  (result (run h (callGenericCommand c kind args) w) = Invalid
   <-> kind <> "getPid"%string)
  /\ (kind = "getPid"%string ->
      result (run h (getPid c) w) = -1 ->
      result (run h (callGenericCommand c kind args) w) = VLongLong (-1)).
Proof.
  unfold callGenericCommand.
  destruct (kind =? "getPid")%string eqn:E.
  - apply String.eqb_eq in E. run_step. split.
    + split; [discriminate | contradiction].
    + intros _ ->. reflexivity.
  - apply String.eqb_neq in E. run_step. split.
    + split; [intros _; exact E | reflexivity].
    + contradiction.
Qed.

Lemma callGenericCommand_invalid_iff_witness :
  result (run (sim quiet) (callGenericCommand (myservice false) "getPid" []) idle)
  = VLongLong (-1).
Proof.
  apply (proj2 (callGenericCommand_invalid_iff (sim quiet) (myservice false)
                  "getPid" [] idle)); reflexivity.
Defined.

(** X15. The answer of [status] tells the outcome of [tryLock]: it is
    [Stopped] only when the lock could be taken, [Running] only when it
    could not and [error()] was [LockFailedError], [Unknown] only when it
    could not and [error()] was anything else; and whatever the answer, the
    lock was tried once. *)
Theorem status_answer_tells_outcome {W : Type} (h : handler W)
    (c : StandardServiceControl) (w : W) :
  let acquired := ask h (QLockFile_tryLock (the_lock h c w)) (lock_made h c w) in
  let st := result (run h (status c) w) in
  (st = Stopped <-> acquired = true)
  /\ (st = Running <-> acquired = false /\ status_failure h c w = LockFailedError)
  /\ (st = Unknown <-> acquired = false /\ status_failure h c w <> LockFailedError)
  /\ count is_tryLock (trace (run h (status c) w)) = 1%nat.
Proof.
  cbv zeta. rewrite status_result, status_tryLock_once.
  destruct (ask h (QLockFile_tryLock _) _).
  - repeat split; try discriminate; intros [H _]; discriminate.
  - destruct (LockError_eqb _ _) eqn:E.
    + apply LockError_eqb_eq in E. repeat split; try discriminate; try assumption.
      intros [_ H]. contradiction.
    + assert (E' : status_failure h c w <> LockFailedError)
        by (intros H; apply LockError_eqb_eq in H; congruence).
      repeat split; try discriminate; try assumption.
      intros [_ H]. contradiction.
Qed.
